(** * The streaming chat relay and its consumer

    A shallow embedding of the two collaborating pieces of the overlay
    assistant:

    - the renderer's chat store ([useChatStore] in [App.tsx]) together with
      the stream listeners the [App] component registers, and
    - the relay [LLMService] (request construction, the line-buffering
      parser of the streamed response, the error-message mapping) together
      with the IPC handler of [main.ts] that forwards its chunks.

    JavaScript strings are sequences of UTF-16 code units, transport chunks
    are byte buffers, and the values that [JSON.parse] returns are untyped:
    the embedding keeps all three as they are at run time. *)

From Stdlib Require Import ZArith NArith List String Ascii Bool Lia.
From Stdlib Require Import Strings.Byte.
Import ListNotations.

Set Warnings "-register-all".

Local Open Scope N_scope.

(** ** JavaScript strings *)

Module JS.

(** A string value: its UTF-16 code units. *)
Definition jsstring := list N.

(** An ASCII literal of the source, as code units. *)
Definition lit (s : string) : jsstring :=
  List.map N_of_ascii (list_ascii_of_string s).

(** The double-quote character, for literals that contain it. *)
Definition dquote : jsstring := [34].

Fixpoint str_eqb (a b : jsstring) : bool :=
  match a, b with
  | [], [] => true
  | x :: a', y :: b' => (x =? y) && str_eqb a' b'
  | _, _ => false
  end.

(** [s.startsWith(p)] *)
Fixpoint startsWith (p s : jsstring) : bool :=
  match p, s with
  | [], _ => true
  | x :: p', y :: s' => (x =? y) && startsWith p' s'
  | _ :: _, [] => false
  end.

(** [s.slice(n)] for a non-negative [n]. *)
Definition slice (n : nat) (s : jsstring) : jsstring := skipn n s.

(** WhiteSpace and LineTerminator code points of ECMAScript, the ones
    [String.prototype.trim] strips: TAB, LF, VT, FF, CR, SP, NBSP, the
    Unicode space separators, LS, PS and the byte-order mark. *)
Definition isWhiteSpace (c : N) : bool :=
  (c =? 9) || (c =? 10) || (c =? 11) || (c =? 12) || (c =? 13) ||
  (c =? 32) || (c =? 160) || (c =? 0x1680) ||
  ((0x2000 <=? c) && (c <=? 0x200A)) ||
  (c =? 0x2028) || (c =? 0x2029) || (c =? 0x202F) || (c =? 0x205F) ||
  (c =? 0x3000) || (c =? 0xFEFF).

Fixpoint trimStart (s : jsstring) : jsstring :=
  match s with
  | [] => []
  | c :: r => if isWhiteSpace c then trimStart r else s
  end.

Definition trimEnd (s : jsstring) : jsstring := rev (trimStart (rev s)).

(** [s.trim()] *)
Definition trim (s : jsstring) : jsstring := trimEnd (trimStart s).

(** Truthiness of a string: the empty string is the only falsy one. *)
Definition nonEmpty (s : jsstring) : bool :=
  match s with [] => false | _ :: _ => true end.

(** [s.split('\n')]: the pieces between line feeds; a string with [n] line
    feeds has [n + 1] pieces, so the result is never empty. *)
Fixpoint split_lf (s : jsstring) : list jsstring :=
  match s with
  | [] => [[]]
  | c :: r =>
      if c =? 10 then [] :: split_lf r
      else match split_lf r with
           | [] => [[c]]
           | l :: ls => (c :: l) :: ls
           end
  end.

(** [arr.pop()]: the last element ([undefined] on an empty array) and the
    array that is left. *)
Definition pop {A : Type} (l : list A) : option A * list A :=
  match rev l with
  | [] => (None, [])
  | x :: r => (Some x, rev r)
  end.

(** [v || ''] for a string or [undefined]. *)
Definition orEmpty (v : option jsstring) : jsstring :=
  match v with
  | Some s => if nonEmpty s then s else []
  | None => []
  end.

(** The complete lines of a text and the unfinished line after the last
    line feed, computed in one pass. *)
Fixpoint cut (s : jsstring) : list jsstring * jsstring :=
  match s with
  | [] => ([], [])
  | c :: r =>
      let (ls, last) := cut r in
      if c =? 10 then ([] :: ls, last)
      else match ls with
           | [] => ([], c :: last)
           | l :: ls' => ((c :: l) :: ls', last)
           end
  end.

(** [arr.join(sep)] *)
Fixpoint join (sep : jsstring) (parts : list jsstring) : jsstring :=
  match parts with
  | [] => []
  | [p] => p
  | p :: rest => p ++ sep ++ join sep rest
  end.

(** The decimal digits of a non-negative integer, as a template literal
    prints it. *)
Definition digit_char (d : N) : N := 48 + d.

Fixpoint dec_digits (fuel : nat) (n : N) (acc : jsstring) : jsstring :=
  match fuel with
  | O => acc
  | S f =>
      let acc' := digit_char (n mod 10) :: acc in
      if n / 10 =? 0 then acc' else dec_digits f (n / 10) acc'
  end.

Definition N_toString (n : N) : jsstring :=
  dec_digits (S (N.to_nat (N.log2 n))) n [].

End JS.

Import JS.

(** ** The chat store ([useChatStore]) *)

Module ChatStore.

Inductive MessageType := user | assistant.

Record ChatMessage := mkChatMessage {
  id : jsstring;
  content : jsstring;
  type : MessageType;
  timestamp : N
}.

(** What [addMessage] reads from its environment: [Date.now()] for the id,
    the text of [Math.random()], and [Date.now()] for the timestamp. *)
Record Clock := mkClock {
  now_id : N;
  random_text : jsstring;
  now_ts : N
}.

Record ChatState := mkChatState {
  messages : list ChatMessage;
  inputValue : jsstring;
  placeholder : jsstring;
  isStreaming : bool;
  streamContent : jsstring;
  isLoading : bool;
  isProcessing : bool;
  currentScreenData : option jsstring;
  isScreenCaptured : bool
}.

Definition defaultPlaceholder : jsstring :=
  lit "Ask me anything... (Enter to chat, " ++ [0x2318] ++
  lit "+Enter to capture screen)".

Definition initialState : ChatState :=
  {| messages := [];
     inputValue := [];
     placeholder := defaultPlaceholder;
     isStreaming := false;
     streamContent := [];
     isLoading := false;
     isProcessing := false;
     currentScreenData := None;
     isScreenCaptured := false |}.

(** The message that [addMessage] builds. *)
Definition newMessage (k : Clock) (c : jsstring) (t : MessageType)
    : ChatMessage :=
  {| id := N_toString (now_id k) ++ lit "-" ++ random_text k;
     content := c;
     type := t;
     timestamp := now_ts k |}.

Definition addMessage (k : Clock) (c : jsstring) (t : MessageType)
    (s : ChatState) : ChatState :=
  {| messages := messages s ++ [newMessage k c t];
     inputValue := inputValue s;
     placeholder := placeholder s;
     isStreaming := isStreaming s;
     streamContent := streamContent s;
     isLoading := isLoading s;
     isProcessing := isProcessing s;
     currentScreenData := currentScreenData s;
     isScreenCaptured := isScreenCaptured s |}.

Definition clearMessages (s : ChatState) : ChatState :=
  {| messages := [];
     inputValue := inputValue s;
     placeholder := placeholder s;
     isStreaming := isStreaming s;
     streamContent := streamContent s;
     isLoading := isLoading s;
     isProcessing := isProcessing s;
     currentScreenData := currentScreenData s;
     isScreenCaptured := isScreenCaptured s |}.

Definition startStreaming (s : ChatState) : ChatState :=
  {| messages := messages s;
     inputValue := inputValue s;
     placeholder := placeholder s;
     isStreaming := true;
     streamContent := [];
     isLoading := isLoading s;
     isProcessing := isProcessing s;
     currentScreenData := currentScreenData s;
     isScreenCaptured := isScreenCaptured s |}.

Definition appendStreamContent (chunk : jsstring) (s : ChatState)
    : ChatState :=
  {| messages := messages s;
     inputValue := inputValue s;
     placeholder := placeholder s;
     isStreaming := isStreaming s;
     streamContent := streamContent s ++ chunk;
     isLoading := isLoading s;
     isProcessing := isProcessing s;
     currentScreenData := currentScreenData s;
     isScreenCaptured := isScreenCaptured s |}.

(** [finishStreaming]: read and trim the buffer, clear the streaming state,
    then add the final message if there is content. *)
Definition finishStreaming (k : Clock) (s : ChatState) : ChatState :=
  let finalContent := trim (streamContent s) in
  let cleared :=
    {| messages := messages s;
       inputValue := inputValue s;
       placeholder := placeholder s;
       isStreaming := false;
       streamContent := [];
       isLoading := false;
       isProcessing := false;
       currentScreenData := currentScreenData s;
       isScreenCaptured := isScreenCaptured s |} in
  if nonEmpty finalContent
  then addMessage k finalContent assistant cleared
  else cleared.

Definition clearStreamContent (s : ChatState) : ChatState :=
  {| messages := messages s;
     inputValue := inputValue s;
     placeholder := placeholder s;
     isStreaming := isStreaming s;
     streamContent := [];
     isLoading := isLoading s;
     isProcessing := isProcessing s;
     currentScreenData := currentScreenData s;
     isScreenCaptured := isScreenCaptured s |}.

Definition clearState (s : ChatState) : ChatState :=
  {| messages := messages s;
     inputValue := [];
     placeholder := defaultPlaceholder;
     isStreaming := false;
     streamContent := [];
     isLoading := false;
     isProcessing := false;
     currentScreenData := None;
     isScreenCaptured := false |}.

End ChatStore.

Import ChatStore.

(** ** The stream listeners of the [App] component *)

Module App.

Definition errorText : jsstring :=
  lit "Sorry, there was an error processing your request.".

Definition handleStreamChunk (chunk : jsstring) (s : ChatState)
    : ChatState :=
  appendStreamContent chunk s.

Definition handleStreamEnd (k : Clock) (s : ChatState) : ChatState :=
  finishStreaming k s.

(** [handleStreamError]: add the fallback message, then [finishStreaming]. *)
Definition handleStreamError (k1 k2 : Clock) (s : ChatState) : ChatState :=
  finishStreaming k2 (addMessage k1 errorText assistant s).

(** A whole stream as the consumer sees it: [startStreaming], one
    [appendStreamContent] per chunk in order, then [finishStreaming]. *)
Definition feed (chunks : list jsstring) (s : ChatState) : ChatState :=
  fold_left (fun st c => appendStreamContent c st) chunks s.

Definition consume (k : Clock) (chunks : list jsstring) (s : ChatState)
    : ChatState :=
  finishStreaming k (feed chunks (startStreaming s)).

End App.

Import App.


(** ** Run-time values *)

Module Values.

(** A Number written as the decimal [(-1)^neg * mant * 10^exp10]; the
    run-time value is the double nearest to it. *)
Record Decimal := mkDecimal {
  neg : bool;
  mant : N;
  exp10 : Z
}.

Definition int_number (n : N) : Decimal :=
  {| neg := false; mant := n; exp10 := 0%Z |}.

(** Whether the decimal rounds to [+0] or [-0] as a double: it is zero, or
    it is no more than half the least subnormal, [2^-1075] (the tie goes to
    the even neighbour, zero). *)
Definition roundsToZero (d : Decimal) : bool :=
  (mant d =? 0) ||
  ((exp10 d <? 0)%Z &&
   (mant d * 2 ^ 1075 <=? 10 ^ Z.to_N (- exp10 d))).

(** The values [JSON.parse] can return, and [undefined]. An object is the
    list of its properties in the order they were written; when a name is
    written twice, the later property is the one a read finds. *)
Inductive Value :=
| VUndefined
| VNull
| VBool (b : bool)
| VNumber (d : Decimal)
| VString (s : jsstring)
| VArray (elems : list Value)
| VObject (props : list (jsstring * Value)).

(** [if (v)] *)
Definition truthy (v : Value) : bool :=
  match v with
  | VUndefined | VNull => false
  | VBool b => b
  | VNumber d => negb (roundsToZero d)
  | VString s => nonEmpty s
  | VArray _ | VObject _ => true
  end.

Fixpoint findLast (k : jsstring) (props : list (jsstring * Value))
    : option Value :=
  match props with
  | [] => None
  | (k', v) :: rest =>
      match findLast k rest with
      | Some found => Some found
      | None => if str_eqb k' k then Some v else None
      end
  end.

(** Reading the own property [k] of an object without it gives
    [undefined]. *)
Definition getOwn (k : jsstring) (props : list (jsstring * Value)) : Value :=
  match findLast k props with
  | Some v => v
  | None => VUndefined
  end.

(** The property names the relay reads. None of them names a member of
    [Object.prototype], [Array.prototype], [String.prototype] or of the
    wrappers of numbers and booleans, so a read that finds no own property
    yields [undefined]. *)
Inductive PropName := Pchoices | Pmessage | Pdelta | Pcontent.

Definition propKey (p : PropName) : jsstring :=
  match p with
  | Pchoices => lit "choices"
  | Pmessage => lit "message"
  | Pdelta => lit "delta"
  | Pcontent => lit "content"
  end.

(** [v.name]; [None] is the [TypeError] of reading a property of [null] or
    [undefined]. *)
Definition getProp (p : PropName) (v : Value) : option Value :=
  match v with
  | VUndefined | VNull => None
  | VObject props => Some (getOwn (propKey p) props)
  | VBool _ | VNumber _ | VString _ | VArray _ => Some VUndefined
  end.

(** [v[0]] *)
Definition getIndex0 (v : Value) : option Value :=
  match v with
  | VUndefined | VNull => None
  | VObject props => Some (getOwn (lit "0") props)
  | VArray [] => Some VUndefined
  | VArray (x :: _) => Some x
  | VString [] => Some VUndefined
  | VString (c :: _) => Some (VString [c])
  | VBool _ | VNumber _ => Some VUndefined
  end.

(** [v?.name] *)
Definition optProp (p : PropName) (v : Value) : Value :=
  match getProp p v with
  | Some x => x
  | None => VUndefined
  end.

End Values.

Import Values.

(** ** [buffer.toString()]: UTF-8 decoding of one transport chunk *)

Module Utf8.

(** The state of a multi-byte sequence in progress: the code point so far,
    the continuation bytes still needed, and the bounds the next one must
    lie in. *)
Record Pending := mkPending {
  cp : N;
  needed : nat;
  lower : N;
  upper : N
}.

(** A byte met with no sequence in progress: an ASCII byte is a code point,
    a lead byte opens a sequence, anything else is replaced by U+FFFD. *)
Definition lead (b : N) : list N * option Pending :=
  if b <=? 0x7F then ([b], None)
  else if (0xC2 <=? b) && (b <=? 0xDF) then
    ([], Some {| cp := N.land b 0x1F; needed := 1;
                 lower := 0x80; upper := 0xBF |})
  else if (0xE0 <=? b) && (b <=? 0xEF) then
    ([], Some {| cp := N.land b 0xF; needed := 2;
                 lower := if b =? 0xE0 then 0xA0 else 0x80;
                 upper := if b =? 0xED then 0x9F else 0xBF |})
  else if (0xF0 <=? b) && (b <=? 0xF4) then
    ([], Some {| cp := N.land b 0x7; needed := 3;
                 lower := if b =? 0xF0 then 0x90 else 0x80;
                 upper := if b =? 0xF4 then 0x8F else 0xBF |})
  else ([0xFFFD], None).

(** The decoder of the Encoding Standard, which is what [toString()] of a
    Node buffer applies: a byte that cannot continue the sequence in
    progress ends it with U+FFFD and is then read afresh, and a sequence
    still open at the end of the buffer becomes U+FFFD. *)
Fixpoint decode (st : option Pending) (bs : list N) : list N :=
  match bs with
  | [] => match st with Some _ => [0xFFFD] | None => [] end
  | b :: rest =>
      match st with
      | None => let (out, st') := lead b in out ++ decode st' rest
      | Some p =>
          if (lower p <=? b) && (b <=? upper p) then
            let c := N.lor (N.shiftl (cp p) 6) (N.land b 0x3F) in
            match needed p with
            | O | S O => c :: decode None rest
            | S n =>
                decode (Some {| cp := c; needed := n;
                                lower := 0x80; upper := 0xBF |}) rest
            end
          else
            let (out, st') := lead b in
            0xFFFD :: out ++ decode st' rest
      end
  end.

(** The UTF-16 code units of a code point. *)
Definition utf16 (c : N) : jsstring :=
  if c <? 0x10000 then [c]
  else
    let v := c - 0x10000 in
    [0xD800 + N.shiftr v 10; 0xDC00 + N.land v 0x3FF].

Definition toString (chunk : list byte) : jsstring :=
  flat_map utf16 (decode None (List.map Byte.to_N chunk)).

Definition isAscii (b : byte) : bool := Byte.to_N b <=? 0x7F.

(** A byte buffer holding an ASCII literal of this development. *)
Definition bytes (s : jsstring) : list byte :=
  List.map (fun c => match Byte.of_N c with Some b => b | None => x00 end) s.

End Utf8.

(** ** [JSON.parse] *)

Module Json.

Inductive PResult (A : Type) :=
| POk (a : A) (rest : jsstring)
| PSyntaxError
| POutOfFuel.

Arguments POk {A} a rest.
Arguments PSyntaxError {A}.
Arguments POutOfFuel {A}.

Definition isJsonWs (c : N) : bool :=
  (c =? 9) || (c =? 10) || (c =? 13) || (c =? 32).

Fixpoint skip_ws (s : jsstring) : jsstring :=
  match s with
  | [] => []
  | c :: r => if isJsonWs c then skip_ws r else s
  end.

Definition isDigit (c : N) : bool := (48 <=? c) && (c <=? 57).

Definition hexval (c : N) : option N :=
  if isDigit c then Some (c - 48)
  else if (65 <=? c) && (c <=? 70) then Some (c - 55)
  else if (97 <=? c) && (c <=? 102) then Some (c - 87)
  else None.

(** The character a two-character escape stands for: quotation mark,
    reverse solidus, solidus, then [b], [f], [n], [r] and [t]. *)
Definition simple_escape (e : N) : option N :=
  if e =? 34 then Some 34
  else if e =? 92 then Some 92
  else if e =? 47 then Some 47
  else if e =? 98 then Some 8
  else if e =? 102 then Some 12
  else if e =? 110 then Some 10
  else if e =? 114 then Some 13
  else if e =? 116 then Some 9
  else None.

(** The characters of a string after its opening quote, up to and
    including the closing quote. *)
Fixpoint parse_string_body (s : jsstring) (acc : jsstring)
    : option (jsstring * jsstring) :=
  match s with
  | [] => None
  | c :: r =>
      if c =? 34 then Some (rev acc, r)
      else if c =? 92 then
        match r with
        | [] => None
        | e :: r1 =>
            if e =? 117 then
              match r1 with
              | h1 :: h2 :: h3 :: h4 :: r2 =>
                  match hexval h1, hexval h2, hexval h3, hexval h4 with
                  | Some a, Some b, Some c', Some d =>
                      parse_string_body r2
                        ((((a * 16 + b) * 16 + c') * 16 + d) :: acc)
                  | _, _, _, _ => None
                  end
              | _ => None
              end
            else
              match simple_escape e with
              | Some x => parse_string_body r1 (x :: acc)
              | None => None
              end
        end
      else if c <? 32 then None
      else parse_string_body r (c :: acc)
  end.

Fixpoint take_digits (s : jsstring) : jsstring * jsstring :=
  match s with
  | [] => ([], [])
  | c :: r =>
      if isDigit c
      then let (ds, rest) := take_digits r in (c :: ds, rest)
      else ([], s)
  end.

Definition digits_value (ds : jsstring) : N :=
  fold_left (fun a c => a * 10 + (c - 48)) ds 0.

(** A number: an optional minus sign; a zero, or a non-zero digit and
    more digits; optionally a point and at least one digit; optionally an
    [e] or [E], a sign and at least one digit. *)
Definition parse_number (s : jsstring) : option (Decimal * jsstring) :=
  let (sign, s1) :=
    match s with
    | c :: r => if c =? 45 then (true, r) else (false, s)
    | [] => (false, s)
    end in
  let int_part :=
    match s1 with
    | c :: r =>
        if c =? 48 then Some ([c], r)
        else if isDigit c then Some (take_digits s1)
        else None
    | [] => None
    end in
  match int_part with
  | None => None
  | Some (ip, s2) =>
      let frac_part :=
        match s2 with
        | c :: r =>
            if c =? 46 then
              match take_digits r with
              | ([], _) => None
              | (fp, r') => Some (fp, r')
              end
            else Some ([], s2)
        | [] => Some ([], s2)
        end in
      match frac_part with
      | None => None
      | Some (fp, s3) =>
          let exp_part :=
            match s3 with
            | c :: r =>
                if (c =? 101) || (c =? 69) then
                  let (eneg, r1) :=
                    match r with
                    | c2 :: r' =>
                        if c2 =? 43 then (false, r')
                        else if c2 =? 45 then (true, r')
                        else (false, r)
                    | [] => (false, r)
                    end in
                  match take_digits r1 with
                  | ([], _) => None
                  | (ed, r2) =>
                      let e := Z.of_N (digits_value ed) in
                      Some ((if eneg then - e else e)%Z, r2)
                  end
                else Some (0%Z, s3)
            | [] => Some (0%Z, s3)
            end in
          match exp_part with
          | None => None
          | Some (e, s4) =>
              Some ({| neg := sign;
                       mant := digits_value (ip ++ fp);
                       exp10 := (e - Z.of_nat (List.length fp))%Z |}, s4)
          end
      end
  end.

Fixpoint parse_value (fuel : nat) (s : jsstring) : PResult Value :=
  match fuel with
  | O => POutOfFuel
  | S f =>
      match skip_ws s with
      | [] => PSyntaxError
      | c :: r =>
          if c =? 123 then
            match skip_ws r with
            | [] => PSyntaxError
            | c2 :: r2 =>
                if c2 =? 125 then POk (VObject []) r2
                else
                  match parse_members f r [] with
                  | POk ps r' => POk (VObject ps) r'
                  | PSyntaxError => PSyntaxError
                  | POutOfFuel => POutOfFuel
                  end
            end
          else if c =? 91 then
            match skip_ws r with
            | [] => PSyntaxError
            | c2 :: r2 =>
                if c2 =? 93 then POk (VArray []) r2
                else
                  match parse_elements f r [] with
                  | POk vs r' => POk (VArray vs) r'
                  | PSyntaxError => PSyntaxError
                  | POutOfFuel => POutOfFuel
                  end
            end
          else if c =? 34 then
            match parse_string_body r [] with
            | Some (str, r') => POk (VString str) r'
            | None => PSyntaxError
            end
          else if startsWith (lit "true") (c :: r) then
            POk (VBool true) (skipn 4 (c :: r))
          else if startsWith (lit "false") (c :: r) then
            POk (VBool false) (skipn 5 (c :: r))
          else if startsWith (lit "null") (c :: r) then
            POk VNull (skipn 4 (c :: r))
          else
            match parse_number (c :: r) with
            | Some (d, r') => POk (VNumber d) r'
            | None => PSyntaxError
            end
      end
  end
with parse_elements (fuel : nat) (s : jsstring) (acc : list Value)
    : PResult (list Value) :=
  match fuel with
  | O => POutOfFuel
  | S f =>
      match parse_value f s with
      | POk v r =>
          match skip_ws r with
          | [] => PSyntaxError
          | c :: r' =>
              if c =? 44 then parse_elements f r' (v :: acc)
              else if c =? 93 then POk (rev (v :: acc)) r'
              else PSyntaxError
          end
      | PSyntaxError => PSyntaxError
      | POutOfFuel => POutOfFuel
      end
  end
with parse_members (fuel : nat) (s : jsstring)
    (acc : list (jsstring * Value)) : PResult (list (jsstring * Value)) :=
  match fuel with
  | O => POutOfFuel
  | S f =>
      match skip_ws s with
      | [] => PSyntaxError
      | c :: r =>
          if c =? 34 then
            match parse_string_body r [] with
            | None => PSyntaxError
            | Some (key, r1) =>
                match skip_ws r1 with
                | [] => PSyntaxError
                | c1 :: r2 =>
                    if c1 =? 58 then
                      match parse_value f r2 with
                      | POk v r3 =>
                          match skip_ws r3 with
                          | [] => PSyntaxError
                          | c3 :: r4 =>
                              if c3 =? 44
                              then parse_members f r4 ((key, v) :: acc)
                              else if c3 =? 125
                              then POk (rev ((key, v) :: acc)) r4
                              else PSyntaxError
                          end
                      | PSyntaxError => PSyntaxError
                      | POutOfFuel => POutOfFuel
                      end
                    else PSyntaxError
                end
            end
          else PSyntaxError
      end
  end.

(** Fuel that the descent never exhausts: it spends at most two units for
    each character it reads. *)
Definition enough (s : jsstring) : nat := S (2 * List.length s).

(** [JSON.parse(s)]; [None] is the [SyntaxError] it throws. *)
Definition JSON_parse (s : jsstring) : option Value :=
  match parse_value (enough s) s with
  | POk v rest =>
      match skip_ws rest with
      | [] => Some v
      | _ :: _ => None
      end
  | PSyntaxError => None
  | POutOfFuel => None
  end.

(** The invariants of the descent, by the fuel it is given: with more
    than two units for each character of the input it does not run out,
    and a successful parse has read at least one character. *)
Definition value_ok (f : nat) : Prop :=
  forall s,
    (2 * List.length s < f)%nat ->
    parse_value f s <> POutOfFuel /\
    forall v r, parse_value f s = POk v r ->
                (List.length r < List.length s)%nat.

Definition elements_ok (f : nat) : Prop :=
  forall s acc,
    (2 * List.length s + 1 < f)%nat ->
    parse_elements f s acc <> POutOfFuel /\
    forall vs r, parse_elements f s acc = POk vs r ->
                 (List.length r < List.length s)%nat.

Definition members_ok (f : nat) : Prop :=
  forall s acc,
    (2 * List.length s + 1 < f)%nat ->
    parse_members f s acc <> POutOfFuel /\
    forall ps r, parse_members f s acc = POk ps r ->
                 (List.length r < List.length s)%nat.

End Json.

Import Json.

(** ** The relay ([LLMService]) *)

Module LLM.

(** What a [catch] clause can receive: an error of the HTTP client, with
    the status of its response when there is one and its [code] when it has
    one, or any other thrown value (an [Error], a [TypeError]). *)
Inductive JSError :=
| AxiosError (status : option N) (code : option jsstring)
| OtherError (text : jsstring).

Inductive Completion (A : Type) :=
| Return (a : A)
| Throw (e : JSError).

Arguments Return {A} a.
Arguments Throw {A} e.

(** The two variables the relay reads from [process.env]. *)
Record Env := mkEnv {
  OPENAI_API_KEY : option jsstring;
  OPENAI_MODEL : option jsstring
}.

Record LLMService := mkLLMService {
  apiKey : jsstring;
  model : jsstring;
  baseURL : jsstring
}.

(** [v || d] for a string or [undefined]. *)
Definition orElse (v : option jsstring) (d : jsstring) : jsstring :=
  match v with
  | Some s => if nonEmpty s then s else d
  | None => d
  end.

Definition keyNotFound : jsstring :=
  lit "OpenAI API key not found. LLM functionality will use mock responses.".

(** The constructor. *)
Definition new_LLMService (env : Env) : Completion LLMService :=
  let k := orElse (OPENAI_API_KEY env) [] in
  let m := orElse (OPENAI_MODEL env) (lit "gpt-4o") in
  if negb (nonEmpty k) then Throw (OtherError keyNotFound)
  else Return {| apiKey := k; model := m;
                 baseURL := lit "https://api.openai.com/v1" |}.

Definition isConfigured (svc : LLMService) : bool := nonEmpty (apiKey svc).

(** [!!screenData] *)
Definition hasScreen (screenData : option jsstring) : bool :=
  match screenData with
  | Some s => nonEmpty s
  | None => false
  end.

Definition systemPrompt : jsstring :=
  lit "You are an intelligent overlay assistant that helps users understand and interact with their screen content. " ++ [10] ++
  lit "        You have access to what the user is currently seeing on their screen. " ++ [10] ++
  lit "        Provide helpful, concise, and actionable responses." ++ [10] ++
  lit "        If you can see screen content, analyze it and provide relevant insights." ++ [10] ++
  lit "        Keep responses brief but informative.".

Definition field (k : string) (v : Value) : jsstring * Value := (lit k, v).

Definition buildMessages (userMessage : jsstring)
    (screenData : option jsstring) : Value :=
  let system :=
    VObject [field "role" (VString (lit "system"));
             field "content" (VString systemPrompt)] in
  let userEntry :=
    match screenData with
    | Some url =>
        if nonEmpty url then
          VObject
            [field "role" (VString (lit "user"));
             field "content"
               (VArray
                  [VObject [field "type" (VString (lit "text"));
                            field "text" (VString userMessage)];
                   VObject [field "type" (VString (lit "image_url"));
                            field "image_url"
                              (VObject [field "url" (VString url)])]])]
        else
          VObject [field "role" (VString (lit "user"));
                   field "content" (VString userMessage)]
    | None =>
        VObject [field "role" (VString (lit "user"));
                 field "content" (VString userMessage)]
    end in
  VArray [system; userEntry].

(** An outbound HTTP request as the client receives it. *)
Inductive Method := GET | POST.

Record Request := mkRequest {
  method : Method;
  url : jsstring;
  data : list (jsstring * Value);
  headers : list (jsstring * jsstring);
  responseType : option jsstring;
  timeout : N
}.

(** [axios.post(url, data, config)] *)
Definition axios_post (u : jsstring) (body : list (jsstring * Value))
    (hs : list (jsstring * jsstring)) (rt : option jsstring) (ms : N)
    : Request :=
  {| method := POST; url := u; data := body; headers := hs;
     responseType := rt; timeout := ms |}.

Definition authHeaders (svc : LLMService) : list (jsstring * jsstring) :=
  [(lit "Authorization", lit "Bearer " ++ apiKey svc);
   (lit "Content-Type", lit "application/json")].

Definition callOpenAI_request (svc : LLMService) (messages : Value)
    : Request :=
  axios_post (baseURL svc ++ lit "/chat/completions")
    [field "model" (VString (model svc));
     field "messages" messages;
     field "max_tokens" (VNumber (int_number 500));
     field "temperature"
       (VNumber {| neg := false; mant := 7; exp10 := (-1)%Z |})]
    (authHeaders svc) None 30000.

Definition callOpenAIStream_request (svc : LLMService) (messages : Value)
    : Request :=
  axios_post (baseURL svc ++ lit "/chat/completions")
    [field "model" (VString (model svc));
     field "messages" messages;
     field "max_tokens" (VNumber (int_number 500));
     field "temperature"
       (VNumber {| neg := false; mant := 7; exp10 := (-1)%Z |});
     field "stream" (VBool true)]
    (authHeaders svc) (Some (lit "stream")) 30000.

(** The body of a streamed response as the [for await] loop observes it:
    the transport chunks in order, after which the stream ends or fails. *)
Record ResponseStream := mkResponseStream {
  chunks : list (list byte);
  failure : option JSError
}.

(** What a call leaves behind: its result and the requests it issued. *)
Record Outcome (A : Type) := mkOutcome {
  result : A;
  requests : list Request
}.

Arguments mkOutcome {A} result requests.
Arguments result {A} o.
Arguments requests {A} o.

(** What a consumer of a generator observes: the values yielded, then the
    normal end of the sequence or an exception. *)
Record Generated := mkGenerated {
  yields : list Value;
  completion : Completion unit
}.

Definition getMockResponse (userMessage : jsstring) (hasScreenData : bool)
    : jsstring :=
  let responses :=
    [ lit "I understand you're asking: " ++ dquote ++ userMessage ++ dquote;
      if hasScreenData
      then lit "I can see your screen content and would analyze it to provide relevant insights if I had access to a real LLM API."
      else lit "I'd be happy to help with that question if I had access to a real LLM API.";
      lit "To enable full functionality, please add your OpenAI API key to the environment variables.";
      lit "You can copy the env.example file to .env and add your API key there." ] in
  join [10; 10] responses.

Definition opt_N_eqb (a : option N) (n : N) : bool :=
  match a with Some x => x =? n | None => false end.

Definition opt_str_eqb (a : option jsstring) (s : jsstring) : bool :=
  match a with Some x => str_eqb x s | None => false end.

Definition getErrorResponse (svc : LLMService) (error : JSError)
    : jsstring :=
  let unexpected := lit "An unexpected error occurred. Please try again." in
  match error with
  | AxiosError status code =>
      if opt_N_eqb status 401 then
        lit "Invalid API key. Please check your OpenAI API key in the environment variables."
      else if opt_N_eqb status 404 then
        lit "Model " ++ dquote ++ model svc ++ dquote ++
        lit " not found. Try using " ++ dquote ++ lit "gpt-4o" ++ dquote ++
        lit " or " ++ dquote ++ lit "gpt-4" ++ dquote ++
        lit " instead. Update your OPENAI_MODEL in the .env file."
      else if opt_N_eqb status 429 then
        lit "Rate limit exceeded. Please try again in a moment."
      else if opt_N_eqb status 400 then
        lit "Bad request. The image might be too large or in an unsupported format."
      else if opt_str_eqb code (lit "ENOTFOUND") ||
              opt_str_eqb code (lit "ECONNREFUSED") then
        lit "Network error. Please check your internet connection."
      else unexpected
  | OtherError _ => unexpected
  end.

Definition typeError : JSError :=
  OtherError (lit "TypeError: Cannot read properties of undefined").

(** [response.choices[0]?.message?.content]; [None] is the [TypeError] of
    indexing [choices] when it is [null] or [undefined], or of reading
    [choices] from [null] or [undefined]. *)
Definition messageContent (response : Value) : option Value :=
  match getProp Pchoices response with
  | None => None
  | Some cs =>
      match getIndex0 cs with
      | None => None
      | Some c0 => Some (optProp Pcontent (optProp Pmessage c0))
      end
  end.

(** [parsed.choices[0]?.delta?.content], likewise. *)
Definition deltaContent (parsed : Value) : option Value :=
  match getProp Pchoices parsed with
  | None => None
  | Some cs =>
      match getIndex0 cs with
      | None => None
      | Some c0 => Some (optProp Pcontent (optProp Pdelta c0))
      end
  end.

(** [sendMessage]. The [try] block issues the request and reads
    [response.choices[0]?.message?.content || '...']; the [catch] clause
    turns whatever was thrown into text. *)
Definition sendMessage (svc : LLMService)
    (http : Request -> Completion Value)
    (userMessage : jsstring) (screenData : option jsstring)
    : Outcome (Completion Value) :=
  if negb (nonEmpty (apiKey svc)) then
    mkOutcome
      (Return (VString (getMockResponse userMessage (hasScreen screenData))))
      []
  else
    let messages := buildMessages userMessage screenData in
    let req := callOpenAI_request svc messages in
    let attempt : Completion Value :=
      match http req with
      | Throw e => Throw e
      | Return response =>
          match messageContent response with
          | None => Throw typeError
          | Some text =>
              if truthy text then Return text
              else Return
                     (VString (lit "Sorry, I could not generate a response."))
          end
      end in
    mkOutcome
      match attempt with
      | Return v => Return v
      | Throw e => Return (VString (getErrorResponse svc e))
      end
      [req].

(** One line of the streamed response. *)
Inductive LineResult :=
| Skip
| Yield (v : Value)
| Done.

Definition process_line (line : jsstring) : LineResult :=
  if startsWith (lit "data: ") line then
    let payload := slice 6 line in
    if str_eqb payload (lit "[DONE]") then Done
    else
      match JSON_parse payload with
      | None => Skip
      | Some parsed =>
          match deltaContent parsed with
          | None => Skip
          | Some text => if truthy text then Yield text else Skip
          end
      end
  else Skip.

(** The inner [for] loop over the complete lines of the buffer: the values
    yielded, and whether the generator returned at the sentinel. *)
Fixpoint process_lines (lines : list jsstring) : list Value * bool :=
  match lines with
  | [] => ([], false)
  | l :: rest =>
      match process_line l with
      | Done => ([], true)
      | Skip => process_lines rest
      | Yield v => let (ys, d) := process_lines rest in (v :: ys, d)
      end
  end.

(** The [for await] loop, started with the text held back so far. *)
Fixpoint stream_loop (buffer : jsstring) (cs : list (list byte))
    (fail : option JSError) : Generated :=
  match cs with
  | [] =>
      {| yields := [];
         completion :=
           match fail with
           | Some e => Throw e
           | None => Return tt
           end |}
  | chunk :: rest =>
      let buffer1 := buffer ++ Utf8.toString chunk in
      let (popped, lines) := pop (split_lf buffer1) in
      let buffer2 := orEmpty popped in
      let (ys, finished) := process_lines lines in
      if finished then {| yields := ys; completion := Return tt |}
      else
        let g := stream_loop buffer2 rest fail in
        {| yields := ys ++ yields g; completion := completion g |}
  end.

(** The same loop over a response that arrives in one piece: the lines
    completed by [text], read after the text [buffer] held back. *)
Definition parse_text (buffer text : jsstring) (fail : option JSError)
    : Generated :=
  let (ys, finished) := process_lines (fst (cut (buffer ++ text))) in
  {| yields := ys;
     completion :=
       if finished then Return tt
       else match fail with
            | Some e => Throw e
            | None => Return tt
            end |}.

Definition callOpenAIStream (svc : LLMService)
    (http : Request -> Completion ResponseStream) (messages : Value)
    : Outcome Generated :=
  let req := callOpenAIStream_request svc messages in
  mkOutcome
    match http req with
    | Throw e => {| yields := []; completion := Throw e |}
    | Return body => stream_loop [] (chunks body) (failure body)
    end
    [req].

(** [sendMessageStream]: the mock answer without a key; otherwise the
    chunks of the inner generator and, if it throws, one more chunk with
    the text for the error. *)
Definition sendMessageStream (svc : LLMService)
    (http : Request -> Completion ResponseStream)
    (userMessage : jsstring) (screenData : option jsstring)
    : Outcome Generated :=
  if negb (nonEmpty (apiKey svc)) then
    mkOutcome
      {| yields :=
           [VString (getMockResponse userMessage (hasScreen screenData))];
         completion := Return tt |}
      []
  else
    let messages := buildMessages userMessage screenData in
    let inner := callOpenAIStream svc http messages in
    mkOutcome
      match completion (result inner) with
      | Return _ =>
          {| yields := yields (result inner); completion := Return tt |}
      | Throw e =>
          {| yields :=
               yields (result inner) ++ [VString (getErrorResponse svc e)];
             completion := Return tt |}
      end
      (requests inner).

End LLM.

Import LLM.

(** ** The main process ([main.ts]) and the path to the store *)

Module Main.

(** [new OverlayApp()]: its constructor builds the relay first. *)
Definition new_OverlayApp (env : Env) : Completion LLMService :=
  new_LLMService env.

(** [sendChatMessage] of the main process: the answer of the relay, or
    the apology if the relay throws. *)
Definition sendChatMessage (svc : LLMService)
    (http : Request -> Completion Value)
    (msg : jsstring) (img : option jsstring) : Outcome Value :=
  let o := sendMessage svc http msg img in
  mkOutcome
    match result o with
    | Return v => v
    | Throw _ =>
        VString (lit "Sorry, there was an error processing your request.")
    end
    (requests o).

Inductive IpcEvent :=
| StreamChunk (v : Value)
| StreamEnd
| StreamError (e : JSError).

(** The handler of [send-chat-message-stream]: one chunk event for each
    value of the generator, then the end event, or the error event if the
    generator throws. *)
Definition relay (g : Generated) : list IpcEvent :=
  List.map StreamChunk (yields g) ++
  [match completion g with
   | Return _ => StreamEnd
   | Throw e => StreamError e
   end].

(** The store after one event. A chunk reaches [appendStreamContent] as
    the string it is; the listener is typed for strings and the embedding
    follows it: a chunk of another type has no successor state here. *)
Definition dispatch (k1 k2 : Clock) (ev : IpcEvent) (s : ChatState)
    : option ChatState :=
  match ev with
  | StreamChunk (VString c) => Some (handleStreamChunk c s)
  | StreamChunk _ => None
  | StreamEnd => Some (handleStreamEnd k1 s)
  | StreamError _ => Some (handleStreamError k1 k2 s)
  end.

Fixpoint dispatch_all (k1 k2 : Clock) (evs : list IpcEvent) (s : ChatState)
    : option ChatState :=
  match evs with
  | [] => Some s
  | ev :: rest =>
      match dispatch k1 k2 ev s with
      | Some s' => dispatch_all k1 k2 rest s'
      | None => None
      end
  end.

(** The application from its start to the answer of a request: the
    constructor runs first, and the handlers exist only if it returns. *)
Definition start_and_send (env : Env) (http : Request -> Completion Value)
    (msg : jsstring) (img : option jsstring)
    : Completion (Outcome Value) :=
  match new_OverlayApp env with
  | Throw e => Throw e
  | Return svc => Return (sendChatMessage svc http msg img)
  end.

Definition start_and_stream (env : Env)
    (http : Request -> Completion ResponseStream)
    (msg : jsstring) (img : option jsstring)
    : Completion (Outcome (list IpcEvent)) :=
  match new_OverlayApp env with
  | Throw e => Throw e
  | Return svc =>
      let o := sendMessageStream svc http msg img in
      Return (mkOutcome (relay (result o)) (requests o))
  end.

End Main.

Import Main.

(** ** Concrete inputs *)

(** A literal that contains double quotes, written with single quotes. *)
Definition requote (s : jsstring) : jsstring :=
  List.map (fun c => if c =? 39 then 34 else c) s.

Definition frame_Hel : jsstring :=
  requote (lit "data: {'choices':[{'delta':{'content':'Hel'}}]}").

Definition frame_lo : jsstring :=
  requote (lit "data: {'choices':[{'delta':{'content':'lo'}}]}").

Definition frame_DONE : jsstring := lit "data: [DONE]".

Definition svc0 : LLMService :=
  {| apiKey := lit "sk-test"; model := lit "gpt-4o";
     baseURL := lit "https://api.openai.com/v1" |}.

Definition clock0 : Clock :=
  {| now_id := 1730000000000; random_text := lit "0.5";
     now_ts := 1730000000000 |}.

Definition frame_true : jsstring :=
  requote (lit "data: {'choices':[{'delta':{'content':true}}]}").

(** The three frames of a short answer, each followed by the blank line of
    the event-stream framing. *)
Definition hello_text : jsstring :=
  frame_Hel ++ [10; 10] ++ frame_lo ++ [10; 10] ++ frame_DONE ++ [10; 10].

Definition respond (cs : list (list byte)) (fail : option JSError)
    : Request -> Completion ResponseStream :=
  fun _ => Return {| chunks := cs; failure := fail |}.

Definition connectionReset : JSError :=
  OtherError (lit "Error: read ECONNRESET").

(** ** The rest of the store *)

Module StoreOps.

Definition setInputValue (v : jsstring) (s : ChatState) : ChatState :=
  {| messages := messages s;
     inputValue := v;
     placeholder := placeholder s;
     isStreaming := isStreaming s;
     streamContent := streamContent s;
     isLoading := isLoading s;
     isProcessing := isProcessing s;
     currentScreenData := currentScreenData s;
     isScreenCaptured := isScreenCaptured s |}.

Definition setPlaceholder (v : jsstring) (s : ChatState) : ChatState :=
  {| messages := messages s;
     inputValue := inputValue s;
     placeholder := v;
     isStreaming := isStreaming s;
     streamContent := streamContent s;
     isLoading := isLoading s;
     isProcessing := isProcessing s;
     currentScreenData := currentScreenData s;
     isScreenCaptured := isScreenCaptured s |}.

Definition setLoading (b : bool) (s : ChatState) : ChatState :=
  {| messages := messages s;
     inputValue := inputValue s;
     placeholder := placeholder s;
     isStreaming := isStreaming s;
     streamContent := streamContent s;
     isLoading := b;
     isProcessing := isProcessing s;
     currentScreenData := currentScreenData s;
     isScreenCaptured := isScreenCaptured s |}.

Definition setProcessing (b : bool) (s : ChatState) : ChatState :=
  {| messages := messages s;
     inputValue := inputValue s;
     placeholder := placeholder s;
     isStreaming := isStreaming s;
     streamContent := streamContent s;
     isLoading := isLoading s;
     isProcessing := b;
     currentScreenData := currentScreenData s;
     isScreenCaptured := isScreenCaptured s |}.

Definition setScreenData (d : option jsstring) (s : ChatState)
    : ChatState :=
  {| messages := messages s;
     inputValue := inputValue s;
     placeholder := placeholder s;
     isStreaming := isStreaming s;
     streamContent := streamContent s;
     isLoading := isLoading s;
     isProcessing := isProcessing s;
     currentScreenData := d;
     isScreenCaptured := isScreenCaptured s |}.

Definition setScreenCaptured (b : bool) (s : ChatState) : ChatState :=
  {| messages := messages s;
     inputValue := inputValue s;
     placeholder := placeholder s;
     isStreaming := isStreaming s;
     streamContent := streamContent s;
     isLoading := isLoading s;
     isProcessing := isProcessing s;
     currentScreenData := currentScreenData s;
     isScreenCaptured := b |}.

(** The operations the store exports, as data, and a run of them. *)
Inductive Action :=
| AddMessage (k : Clock) (c : jsstring) (t : MessageType)
| ClearMessages
| SetInputValue (v : jsstring)
| SetPlaceholder (v : jsstring)
| StartStreaming
| AppendStreamContent (chunk : jsstring)
| FinishStreaming (k : Clock)
| ClearStreamContent
| SetLoading (b : bool)
| SetProcessing (b : bool)
| SetScreenData (d : option jsstring)
| SetScreenCaptured (b : bool)
| ClearState.

Definition step (a : Action) (s : ChatState) : ChatState :=
  match a with
  | AddMessage k c t => addMessage k c t s
  | ClearMessages => clearMessages s
  | SetInputValue v => setInputValue v s
  | SetPlaceholder v => setPlaceholder v s
  | StartStreaming => startStreaming s
  | AppendStreamContent chunk => appendStreamContent chunk s
  | FinishStreaming k => finishStreaming k s
  | ClearStreamContent => clearStreamContent s
  | SetLoading b => setLoading b s
  | SetProcessing b => setProcessing b s
  | SetScreenData d => setScreenData d s
  | SetScreenCaptured b => setScreenCaptured b s
  | ClearState => clearState s
  end.

Definition run (acts : list Action) (s : ChatState) : ChatState :=
  fold_left (fun st a => step a st) acts s.

Definition keepsLog (a : Action) : bool :=
  match a with
  | ClearMessages => false
  | _ => true
  end.

End StoreOps.

Import StoreOps.

(** ** The rest of the [App] component *)

Module AppFlow.

Definition screenPlaceholder : jsstring :=
  lit "What would you like to know about this screen?".

(** [handleScreenCapture], the listener of [initiate-chat-with-screen]. *)
Definition handleScreenCapture (screenData : option jsstring)
    (s : ChatState) : ChatState :=
  let s1 := setScreenCaptured (hasScreen screenData)
              (setScreenData screenData s) in
  if hasScreen screenData then setPlaceholder screenPlaceholder s1 else s1.

(** How [window.electronAPI.captureScreen()] settles: with the data URL or
    [null], or rejected. *)
Inductive CaptureResult :=
| Captured (d : option jsstring)
| CaptureRejected.

(** [captureAndSendMessage]; [api] says whether [window.electronAPI]
    exists. *)
Definition captureAndSendMessage (api : bool) (k : Clock)
    (r : CaptureResult) (s : ChatState) : ChatState :=
  if isProcessing s || negb api then s
  else
    let s1 := setScreenCaptured true s in
    match r with
    | Captured d =>
        let s2 := setScreenData d s1 in
        if hasScreen d then setPlaceholder screenPlaceholder s2
        else
          setScreenCaptured false
            (addMessage k
               (lit "Failed to capture screen. Please try again.")
               assistant s2)
    | CaptureRejected =>
        setScreenCaptured false
          (addMessage k (lit "Error capturing screen.") assistant s1)
    end.

(** [currentScreenData || undefined] *)
Definition orUndefined (d : option jsstring) : option jsstring :=
  match d with
  | Some u => if nonEmpty u then Some u else None
  | None => None
  end.

(** What [sendMessage] of the component does before it awaits the main
    process: nothing at the guard ([None]); otherwise the new state and the
    two arguments of [sendChatMessageStream]. *)
Definition App_sendMessage_begin (api : bool) (k : Clock) (s : ChatState)
    : option (ChatState * jsstring * option jsstring) :=
  if isProcessing s || negb (nonEmpty (trim (inputValue s))) || negb api
  then None
  else
    let message := trim (inputValue s) in
    let s1 := startStreaming (setLoading true (setProcessing true s)) in
    let s2 :=
      setPlaceholder defaultPlaceholder
        (setInputValue [] (addMessage k message user s1)) in
    Some (s2, message, orUndefined (currentScreenData s)).

(** The statements after the [await], when the call resolved. *)
Definition App_sendMessage_resolved (s : ChatState) : ChatState :=
  setScreenCaptured false (setScreenData None s).

(** The [catch] clause, when the call was rejected. *)
Definition App_sendMessage_rejected (k1 k2 : Clock) (s : ChatState)
    : ChatState :=
  finishStreaming k2 (addMessage k1 errorText assistant s).

(** The text a chunk adds to the buffer in [streamContent + chunk]: a
    string adds itself, any other value the string [other] converts it
    to. *)
Definition chunkText (other : Value -> jsstring) (v : Value) : jsstring :=
  match v with
  | VString c => c
  | _ => other v
  end.

(** The store after one event of the main process, for chunks of any
    type. *)
Definition deliver (other : Value -> jsstring) (k1 k2 : Clock)
    (ev : IpcEvent) (s : ChatState) : ChatState :=
  match ev with
  | StreamChunk v => handleStreamChunk (chunkText other v) s
  | StreamEnd => handleStreamEnd k1 s
  | StreamError _ => handleStreamError k1 k2 s
  end.

Definition deliver_all (other : Value -> jsstring) (k1 k2 : Clock)
    (evs : list IpcEvent) (s : ChatState) : ChatState :=
  fold_left (fun st ev => deliver other k1 k2 ev st) evs s.

(** One submission from the key press to the settled state: the guard, the
    synchronous part, the events of the main process, the statements after
    the [await]. *)
Definition submit (other : Value -> jsstring) (svc : LLMService)
    (http : Request -> Completion ResponseStream)
    (ku ka kb : Clock) (s : ChatState) : ChatState :=
  match App_sendMessage_begin true ku s with
  | None => s
  | Some (s1, message, img) =>
      let g := result (sendMessageStream svc http message img) in
      App_sendMessage_resolved (deliver_all other ka kb (relay g) s1)
  end.

(** What the component renders from the store: whether the chat section is
    visible, and whether the bubble of the stream in progress is shown. *)
Definition shouldShowChat (s : ChatState) : bool :=
  negb (Nat.eqb (List.length (messages s)) 0) || isStreaming s.

Definition showsStreamBubble (s : ChatState) : bool :=
  isStreaming s && nonEmpty (streamContent s).

(** The indicator is lit exactly when a screenshot is attached. *)
Definition indicatorAgrees (s : ChatState) : bool :=
  Bool.eqb (isScreenCaptured s) (hasScreen (currentScreenData s)).

End AppFlow.

Import AppFlow.

(** ** The component between its awaits

    [captureAndSendMessage] and [sendMessage] are asynchronous: each runs
    up to its [await], the other listeners run while the awaited call is
    pending, and the rest of the function runs, in the state it then finds,
    when the call settles. *)

(** [captureAndSendMessage] up to [await captureScreen()]: [None] at the
    guard. *)
Definition captureAndSendMessage_begin (api : bool) (s : ChatState)
    : option ChatState :=
  if isProcessing s || negb api then None
  else Some (setScreenCaptured true s).

(** The rest of [captureAndSendMessage], in the state the capture settles
    in. *)
Definition captureAndSendMessage_settled (k : Clock) (r : CaptureResult)
    (s : ChatState) : ChatState :=
  match r with
  | Captured d =>
      let s2 := setScreenData d s in
      if hasScreen d then setPlaceholder screenPlaceholder s2
      else
        setScreenCaptured false
          (addMessage k
             (lit "Failed to capture screen. Please try again.")
             assistant s2)
  | CaptureRejected =>
      setScreenCaptured false
        (addMessage k (lit "Error capturing screen.") assistant s)
  end.

(** The component as the event loop sees it: the store, the number of
    [captureScreen()] calls awaited, the number of streams the main
    process is still sending, and the number of streams that were ended
    and whose call has not resolved yet. *)
Record Ui := {
  store : ChatState;
  captures : nat;
  streams : nat;
  replies : nat
}.

Definition with_store (s : ChatState) (ui : Ui) : Ui :=
  {| store := s; captures := captures ui; streams := streams ui;
     replies := replies ui |}.

Definition ui0 : Ui :=
  {| store := initialState; captures := 0%nat; streams := 0%nat;
     replies := 0%nat |}.

(** What the event loop hands to the component, one turn each: the
    screenshot pushed by the main process, a change of the input, the
    capture key, the capture settling, the submit key, an event of a
    stream, the call of a stream resolving or being rejected, and the
    overlay being hidden (the overlay being shown only moves the focus,
    and is left out). *)
Inductive UiEvent :=
| ScreenPushed (d : option jsstring)
| Typed (v : jsstring)
| CaptureKey
| CaptureReturned (k : Clock) (r : CaptureResult)
| SubmitKey (k : Clock)
| FromMain (k1 k2 : Clock) (ev : IpcEvent)
| CallResolved
| CallRejected (k1 k2 : Clock)
| OverlayWasHidden.

(** One turn. An event that continues a call is possible only while such a
    call is pending, and leaves the component as it is otherwise. The
    end and the error event are the last of their stream; its call
    resolves afterwards. The input is disabled while [isProcessing]; the
    guards of the two key handlers are modelled as written, and [Typed]
    in every state. *)
Definition uiStep (other : Value -> jsstring) (ev : UiEvent) (ui : Ui)
    : Ui :=
  match ev with
  | ScreenPushed d => with_store (handleScreenCapture d (store ui)) ui
  | Typed v => with_store (setInputValue v (store ui)) ui
  | CaptureKey =>
      match captureAndSendMessage_begin true (store ui) with
      | None => ui
      | Some s1 =>
          {| store := s1; captures := S (captures ui);
             streams := streams ui; replies := replies ui |}
      end
  | CaptureReturned k r =>
      match captures ui with
      | O => ui
      | S n =>
          {| store := captureAndSendMessage_settled k r (store ui);
             captures := n; streams := streams ui;
             replies := replies ui |}
      end
  | SubmitKey k =>
      match App_sendMessage_begin true k (store ui) with
      | None => ui
      | Some (s1, _, _) =>
          {| store := s1; captures := captures ui;
             streams := S (streams ui); replies := replies ui |}
      end
  | FromMain k1 k2 ev =>
      match streams ui with
      | O => ui
      | S n =>
          match ev with
          | StreamChunk _ =>
              with_store (deliver other k1 k2 ev (store ui)) ui
          | _ =>
              {| store := deliver other k1 k2 ev (store ui);
                 captures := captures ui; streams := n;
                 replies := S (replies ui) |}
          end
      end
  | CallResolved =>
      match replies ui with
      | O => ui
      | S n =>
          {| store := App_sendMessage_resolved (store ui);
             captures := captures ui; streams := streams ui;
             replies := n |}
      end
  | CallRejected k1 k2 =>
      match streams ui with
      | O => ui
      | S n =>
          {| store := App_sendMessage_rejected k1 k2 (store ui);
             captures := captures ui; streams := n;
             replies := replies ui |}
      end
  | OverlayWasHidden => with_store (clearState (store ui)) ui
  end.

Definition uiRun (other : Value -> jsstring) (evs : list UiEvent)
    (ui : Ui) : Ui :=
  fold_left (fun st ev => uiStep other ev st) evs ui.


(** The indicator is lit only with cause: a screenshot is attached, or a
    capture is pending. *)
Definition litWithCause (ui : Ui) : bool :=
  implb (isScreenCaptured (store ui))
    (hasScreen (currentScreenData (store ui)) ||
     negb (Nat.eqb (captures ui) 0%nat)).

(** A character that stands for itself inside a JSON string: not a
    control character, not the quotation mark, not the reverse solidus. *)
Definition plainChar (c : N) : bool :=
  (32 <=? c) && negb (c =? 34) && negb (c =? 92).

(** The line of the stream that carries the text delta [c], for a text
    made of such characters. *)
Definition deltaFrame (c : jsstring) : jsstring :=
  requote (lit "data: {'choices':[{'delta':{'content':'") ++ c ++
  requote (lit "'}}]}").

Definition notLineFeed (c : N) : bool := negb (c =? 10).

(** The statuses and the codes that [getErrorResponse] has a text for. *)
Definition guidanceStatus (status : option N) : bool :=
  opt_N_eqb status 401 || opt_N_eqb status 404 ||
  opt_N_eqb status 429 || opt_N_eqb status 400.

Definition networkCode (code : option jsstring) : bool :=
  opt_str_eqb code (lit "ENOTFOUND") || opt_str_eqb code (lit "ECONNREFUSED").

(** ** The overlay window ([main.ts]) *)

Module Overlay.

(** The messages the main process sends to the renderer about the
    overlay. *)
Inductive Channel :=
| OverlayShown
| OverlayHidden
| InitiateChatWithScreen (screenData : option jsstring).

(** What the application observes and changes of its window: whether it
    is shown, whether it has the focus, and what was sent to its
    contents. *)
Record BrowserWindow := mkBrowserWindow {
  visible : bool;
  focused : bool;
  sent : list Channel
}.

Record OverlayApp := mkOverlayApp {
  overlayWindow : option BrowserWindow;
  isOverlayVisible : bool
}.

(** The application before its window exists, and [createOverlayWindow],
    which creates the window hidden ([show: false]). *)
Definition fresh : OverlayApp :=
  {| overlayWindow := None; isOverlayVisible := false |}.

Definition createOverlayWindow (app : OverlayApp) : OverlayApp :=
  {| overlayWindow :=
       Some {| visible := false; focused := false; sent := [] |};
     isOverlayVisible := isOverlayVisible app |}.

Definition showOverlay (app : OverlayApp) : OverlayApp :=
  match overlayWindow app with
  | None => app
  | Some w =>
      {| overlayWindow :=
           Some {| visible := true; focused := true;
                   sent := sent w ++ [OverlayShown] |};
         isOverlayVisible := true |}
  end.

Definition hideOverlay (app : OverlayApp) : OverlayApp :=
  match overlayWindow app with
  | None => app
  | Some w =>
      {| overlayWindow :=
           Some {| visible := false; focused := false;
                   sent := sent w ++ [OverlayHidden] |};
         isOverlayVisible := false |}
  end.

Definition toggleOverlay (app : OverlayApp) : OverlayApp :=
  match overlayWindow app with
  | None => app
  | Some _ => if isOverlayVisible app then hideOverlay app
              else showOverlay app
  end.

(** [captureScreen]: the data URL of the thumbnail of the first source,
    [null] when there is no source or when asking for the sources fails. *)
Definition captureScreen (sources : Completion (list jsstring))
    : option jsstring :=
  match sources with
  | Return (primary :: _) => Some primary
  | Return [] => None
  | Throw _ => None
  end.

(** The second half of [initiateChatWithScreenCapture], after the capture
    settled: the screenshot is sent to the renderer. *)
Definition sendScreen (sources : Completion (list jsstring))
    (app : OverlayApp) : OverlayApp :=
  match overlayWindow app with
  | None => app
  | Some w =>
      {| overlayWindow :=
           Some {| visible := visible w; focused := focused w;
                   sent := sent w ++
                           [InitiateChatWithScreen (captureScreen sources)] |};
         isOverlayVisible := isOverlayVisible app |}
  end.

(** What happens to the application: the three global shortcuts, the
    window losing the focus, and the request of the renderer to hide. The
    capture shortcut only decides whether a capture starts; the capture
    settles later, as an event of its own. *)
Inductive MainEvent :=
| ToggleShortcut
| EscapeShortcut
| WindowBlurred
| HideRequested
| CaptureSettled (sources : Completion (list jsstring)).

Definition blurred (app : OverlayApp) : OverlayApp :=
  match overlayWindow app with
  | None => app
  | Some w =>
      {| overlayWindow :=
           Some {| visible := visible w; focused := false;
                   sent := sent w |};
         isOverlayVisible := isOverlayVisible app |}
  end.

Definition handle (ev : MainEvent) (app : OverlayApp) : OverlayApp :=
  match ev with
  | ToggleShortcut => toggleOverlay app
  | EscapeShortcut => if isOverlayVisible app then hideOverlay app else app
  | WindowBlurred =>
      let app' := blurred app in
      if isOverlayVisible app' then hideOverlay app' else app'
  | HideRequested => hideOverlay app
  | CaptureSettled sources => sendScreen sources app
  end.

Definition handle_all (evs : list MainEvent) (app : OverlayApp)
    : OverlayApp :=
  fold_left (fun a ev => handle ev a) evs app.

(** The events that call [hideOverlay] when the overlay is visible. *)
Definition asksToHide (ev : MainEvent) : bool :=
  match ev with
  | CaptureSettled _ => false
  | _ => true
  end.

(** The flag of the application agrees with its window. *)
Definition flagAgrees (app : OverlayApp) : bool :=
  match overlayWindow app with
  | None => negb (isOverlayVisible app)
  | Some w =>
      Bool.eqb (isOverlayVisible app) (visible w) &&
      implb (focused w) (visible w)
  end.

(** The renderer's store after the messages of the main process: hiding
    clears the state, a screenshot is attached. *)
Definition receive (c : Channel) (s : ChatState) : ChatState :=
  match c with
  | OverlayShown => s
  | OverlayHidden => clearState s
  | InitiateChatWithScreen d => handleScreenCapture d s
  end.

End Overlay.

Import Overlay.

(** * Properties *)

(** ** The embedding at work *)

Example trim_strips_unicode_space :
  trim ([0xFEFF; 32; 10] ++ lit "a b" ++ [9; 0x2028; 0xA0]) = lit "a b".
Proof. reflexivity. Qed.

Example split_keeps_the_unfinished_line :
  split_lf (lit "ab" ++ [10] ++ lit "cd" ++ [10] ++ lit "e")
  = [lit "ab"; lit "cd"; lit "e"] /\
  split_lf (lit "ab" ++ [10]) = [lit "ab"; []] /\
  split_lf [] = [[]].
Proof. repeat split. Qed.

Example toString_replaces_ill_formed_bytes :
  Utf8.toString [x48; xc3; xa9; xe2; x82; xac; xf0; x9f; x98; x80]
  = [0x48; 0xE9; 0x20AC; 0xD83D; 0xDE00] /\
  Utf8.toString [xc3] = [0xFFFD] /\
  Utf8.toString [xa9] = [0xFFFD] /\
  Utf8.toString [xe2; x82] = [0xFFFD] /\
  Utf8.toString [xc0; x80] = [0xFFFD; 0xFFFD].
Proof. repeat split. Qed.

Example JSON_parse_frame :
  JSON_parse (requote (lit "{'choices':[{'delta':{'content':'Hel'}}]}"))
  = Some
      (VObject
         [(lit "choices",
           VArray
             [VObject
                [(lit "delta",
                  VObject [(lit "content", VString (lit "Hel"))])]])]).
Proof. reflexivity. Qed.

Example JSON_parse_rejects :
  JSON_parse (lit "[DONE]") = None /\
  JSON_parse (requote (lit "{'a':1,}")) = None /\
  JSON_parse (lit "01") = None /\
  JSON_parse (requote (lit "{'a':1} x")) = None /\
  JSON_parse [] = None.
Proof. repeat split. Qed.

Example JSON_parse_accepts :
  JSON_parse (lit " [1, -2.5e3, true, null] " ++ [13])
  = Some
      (VArray
         [VNumber {| neg := false; mant := 1; exp10 := 0 |};
          VNumber {| neg := true; mant := 25; exp10 := 2 |};
          VBool true; VNull]) /\
  JSON_parse (requote (lit "'H\n\\'"))
  = Some (VString [0x48; 10; 92]).
Proof. repeat split. Qed.

Example later_property_wins :
  option_map (getProp Pcontent)
    (JSON_parse (requote (lit "{'content':'a','content':'b'}")))
  = Some (Some (VString (lit "b"))).
Proof. reflexivity. Qed.

Example truthiness :
  List.map truthy
    [VUndefined; VNull; VBool false; VString [];
     VNumber {| neg := true; mant := 0; exp10 := 0 |};
     VNumber {| neg := false; mant := 2; exp10 := (-324) |}]
  = [false; false; false; false; false; false] /\
  List.map truthy
    [VBool true; VString (lit "0"); VArray []; VObject [];
     VNumber {| neg := false; mant := 3; exp10 := (-324) |}]
  = [true; true; true; true; true].
Proof. split; reflexivity. Qed.

(** The delta of a frame whose [choices] is an object with a property [0],
    and of frames that make the read throw. *)
Example deltaContent_reads :
  option_map deltaContent
    (JSON_parse (requote (lit "{'choices':{'0':{'delta':{'content':'x'}}}}")))
  = Some (Some (VString (lit "x"))) /\
  option_map deltaContent (JSON_parse (lit "null")) = Some None /\
  option_map deltaContent (JSON_parse (lit "{}")) = Some None /\
  option_map deltaContent (JSON_parse (requote (lit "{'choices':[]}")))
  = Some (Some VUndefined) /\
  option_map deltaContent (JSON_parse (requote (lit "{'choices':[null]}")))
  = Some (Some VUndefined).
Proof. repeat split. Qed.

(** A last line that no line feed ends stays in the buffer and is never
    read; the same line ended by a line feed is. *)
Example unfinished_line_is_not_read :
  yields (stream_loop [] [Utf8.bytes frame_Hel] None) = [] /\
  yields (stream_loop [] [Utf8.bytes frame_Hel; Utf8.bytes [10]] None)
  = [VString (lit "Hel")].
Proof. split; vm_compute; reflexivity. Qed.

(** After the sentinel nothing is read, not even a failure of the
    stream. *)
Example nothing_is_read_after_the_sentinel :
  stream_loop []
    [Utf8.bytes (frame_DONE ++ [10] ++ frame_Hel ++ [10]);
     Utf8.bytes (frame_lo ++ [10])]
    (Some connectionReset)
  = {| yields := []; completion := Return tt |}.
Proof. vm_compute. reflexivity. Qed.

Example mock_answer :
  getMockResponse (lit "hello") false
  = lit "I understand you're asking: " ++ dquote ++ lit "hello" ++ dquote ++
    [10; 10] ++
    lit "I'd be happy to help with that question if I had access to a real LLM API." ++
    [10; 10] ++
    lit "To enable full functionality, please add your OpenAI API key to the environment variables." ++
    [10; 10] ++
    lit "You can copy the env.example file to .env and add your API key there.".
Proof. reflexivity. Qed.

(** ** Strings *)

Lemma trimStart_nil_iff (s : jsstring) :
  trimStart s = [] <-> forallb isWhiteSpace s = true.
Proof.
  induction s as [|c r IH]; simpl.
  - tauto.
  - destruct (isWhiteSpace c); simpl.
    + exact IH.
    + split; discriminate.
Qed.

Lemma trimStart_forallb (s : jsstring) :
  forallb isWhiteSpace (trimStart s) = forallb isWhiteSpace s.
Proof.
  induction s as [|c r IH]; simpl; [reflexivity|].
  destruct (isWhiteSpace c) eqn:E; simpl.
  - exact IH.
  - rewrite E. reflexivity.
Qed.

Lemma forallb_rev {A : Type} (f : A -> bool) (l : list A) :
  forallb f (rev l) = forallb f l.
Proof.
  induction l as [|x l IH]; simpl; [reflexivity|].
  rewrite forallb_app, IH. simpl.
  rewrite andb_true_r. apply andb_comm.
Qed.

Lemma nonEmpty_false_iff (s : jsstring) : nonEmpty s = false <-> s = [].
Proof. destruct s; simpl; split; congruence. Qed.

(** A string trims to the empty string exactly when it consists of white
    space only. *)
Lemma nonEmpty_trim (s : jsstring) :
  nonEmpty (trim s) = negb (forallb isWhiteSpace s).
Proof.
  unfold trim, trimEnd.
  destruct (forallb isWhiteSpace s) eqn:E; simpl.
  - apply trimStart_nil_iff in E. rewrite E. reflexivity.
  - destruct (nonEmpty (rev (trimStart (rev (trimStart s))))) eqn:HN;
      [reflexivity|].
    apply nonEmpty_false_iff in HN.
    apply (f_equal (@rev N)) in HN. rewrite rev_involutive in HN. simpl in HN.
    apply trimStart_nil_iff in HN.
    rewrite forallb_rev, trimStart_forallb in HN. congruence.
Qed.

Lemma trimStart_decompose (s : jsstring) :
  exists pre, s = pre ++ trimStart s /\ forallb isWhiteSpace pre = true.
Proof.
  induction s as [|c r (pre & Hs & Hpre)]; simpl.
  - exists []. split; reflexivity.
  - destruct (isWhiteSpace c) eqn:E.
    + exists (c :: pre). simpl. rewrite E, Hpre. split; [|reflexivity].
      now rewrite <- Hs.
    + exists []. split; reflexivity.
Qed.

Lemma trimStart_idempotent (s : jsstring) :
  trimStart (trimStart s) = trimStart s.
Proof.
  induction s as [|c r IH]; simpl; [reflexivity|].
  destruct (isWhiteSpace c) eqn:E; [exact IH|].
  simpl. now rewrite E.
Qed.

Lemma trimStart_snoc (x : jsstring) (c : N) :
  isWhiteSpace c = false -> trimStart (x ++ [c]) = trimStart x ++ [c].
Proof.
  intros Hc. induction x as [|d x IH]; simpl.
  - now rewrite Hc.
  - destruct (isWhiteSpace d); [exact IH | reflexivity].
Qed.

(** [trim] removes a prefix and a suffix of white space, and what is left
    has no white space at either end. *)
Lemma trim_decompose (s : jsstring) :
  exists pre post,
    s = pre ++ trim s ++ post /\
    forallb isWhiteSpace pre = true /\
    forallb isWhiteSpace post = true.
Proof.
  destruct (trimStart_decompose s) as (pre & Hs & Hpre).
  destruct (trimStart_decompose (rev (trimStart s))) as (q & Hq & Hqws).
  exists pre, (rev q). repeat split.
  - unfold trim, trimEnd. rewrite <- rev_app_distr, <- Hq, rev_involutive.
    exact Hs.
  - exact Hpre.
  - now rewrite forallb_rev.
Qed.

Lemma trim_stripped (s : jsstring) :
  trimStart (trim s) = trim s /\ trimEnd (trim s) = trim s.
Proof.
  unfold trim, trimEnd. split.
  - destruct (trimStart s) as [|c r] eqn:E; [reflexivity|].
    assert (Hc : isWhiteSpace c = false).
    { pose proof (trimStart_idempotent s) as I. rewrite E in I.
      simpl in I. destruct (isWhiteSpace c); [|reflexivity].
      exfalso.
      destruct (trimStart_decompose r) as (p & Hr & _).
      apply (f_equal (@List.length N)) in Hr. rewrite I in Hr.
      rewrite length_app in Hr. simpl in Hr. lia. }
    simpl. rewrite trimStart_snoc by assumption.
    rewrite rev_unit. simpl. now rewrite Hc.
  - rewrite rev_involutive, trimStart_idempotent. reflexivity.
Qed.

(** ** The store *)

Lemma feed_streamContent (cs : list jsstring) (s : ChatState) :
  streamContent (feed cs s) = streamContent s ++ List.concat cs.
Proof.
  unfold feed. revert s.
  induction cs as [|c cs IH]; intros s; simpl.
  - now rewrite app_nil_r.
  - rewrite IH. simpl. now rewrite app_assoc.
Qed.

Lemma feed_messages (cs : list jsstring) (s : ChatState) :
  messages (feed cs s) = messages s.
Proof.
  unfold feed. revert s.
  induction cs as [|c cs IH]; intros s; simpl; [reflexivity|].
  now rewrite IH.
Qed.

Lemma feed_isStreaming (cs : list jsstring) (s : ChatState) :
  isStreaming (feed cs s) = isStreaming s.
Proof.
  unfold feed. revert s.
  induction cs as [|c cs IH]; intros s; simpl; [reflexivity|].
  now rewrite IH.
Qed.

Lemma finishStreaming_messages (k : Clock) (s : ChatState) :
  messages (finishStreaming k s) =
  if forallb isWhiteSpace (streamContent s)
  then messages s
  else messages s ++ [newMessage k (trim (streamContent s)) assistant].
Proof.
  unfold finishStreaming.
  rewrite nonEmpty_trim.
  destruct (forallb isWhiteSpace (streamContent s)); reflexivity.
Qed.

Lemma finishStreaming_idle (k : Clock) (s : ChatState) :
  isStreaming (finishStreaming k s) = false /\
  streamContent (finishStreaming k s) = [].
Proof.
  unfold finishStreaming.
  destruct (nonEmpty (trim (streamContent s))); split; reflexivity.
Qed.

(** C1. For every finite sequence of text chunks, starting a stream,
    appending the chunks in order and finishing leaves the consumer idle
    with an empty buffer, and commits exactly one new assistant message
    holding the trimmed concatenation of the chunks, unless the
    concatenation is empty or white space only, in which case the message
    log is unchanged. *)
Theorem C1_consume_commits_trimmed_concatenation :
  forall (k : Clock) (cs : list jsstring) (s : ChatState),
    isStreaming (consume k cs s) = false /\
    streamContent (consume k cs s) = [] /\
    messages (consume k cs s) =
      (if forallb isWhiteSpace (List.concat cs)
       then messages s
       else messages s ++
            [newMessage k (trim (List.concat cs)) assistant]) /\
    ChatStore.type (newMessage k (trim (List.concat cs)) assistant)
      = assistant /\
    ChatStore.content (newMessage k (trim (List.concat cs)) assistant)
      = trim (List.concat cs) /\
    nonEmpty (trim (List.concat cs))
      = negb (forallb isWhiteSpace (List.concat cs)).
Proof.
  intros k cs s. unfold consume.
  destruct (finishStreaming_idle k (feed cs (startStreaming s))) as [Hi Hb].
  repeat split; try assumption.
  - rewrite finishStreaming_messages, feed_streamContent, feed_messages.
    reflexivity.
  - apply nonEmpty_trim.
Qed.

(** C2 at the failing input, and for every stream it stands for: while a
    stream is running the overlay is hidden, which leaves the consumer
    idle with an empty buffer, and the main process goes on sending. The
    chunk that arrives then is appended to the buffer, not dropped, and
    the end event of the stream commits it as a message of its own. With
    [Hel] received before the overlay is hidden and [lo] after, the log
    gains the message [lo]. *)
Theorem C2_chunk_after_hide_is_appended_and_committed :
  forall (k : Clock) (before : list jsstring) (late : jsstring)
         (s : ChatState),
    let hidden := clearState (feed before (startStreaming s)) in
    isStreaming hidden = false /\
    streamContent hidden = [] /\
    isStreaming (handleStreamChunk late hidden) = false /\
    streamContent (handleStreamChunk late hidden) = late /\
    messages (handleStreamEnd k (handleStreamChunk late hidden)) =
      messages s ++
      (if forallb isWhiteSpace late then []
       else [newMessage k (trim late) assistant]) /\
    messages
      (handleStreamEnd clock0
         (handleStreamChunk (lit "lo")
            (clearState
               (feed [lit "Hel"] (startStreaming initialState)))))
    = [newMessage clock0 (lit "lo") assistant].
Proof.
  intros k before late s hidden. subst hidden.
  repeat split.
  unfold handleStreamEnd, handleStreamChunk.
  rewrite finishStreaming_messages.
  cbn [appendStreamContent clearState streamContent messages app].
  rewrite feed_messages. cbn [startStreaming messages].
  destruct (forallb isWhiteSpace late);
    [now rewrite app_nil_r | reflexivity].
Qed.




(** C8. Appending a chunk while the consumer is idle leaves the message
    log as it was and the consumer idle: the transient buffer is the only
    field that changes. The operation is a total function: nothing in it
    can raise. *)
Theorem C8_append_while_idle_keeps_messages :
  forall (chunk : jsstring) (s : ChatState),
    isStreaming s = false ->
    messages (appendStreamContent chunk s) = messages s /\
    isStreaming (appendStreamContent chunk s) = false /\
    appendStreamContent chunk s =
      {| messages := messages s;
         inputValue := inputValue s;
         placeholder := placeholder s;
         isStreaming := false;
         streamContent := streamContent s ++ chunk;
         isLoading := isLoading s;
         isProcessing := isProcessing s;
         currentScreenData := currentScreenData s;
         isScreenCaptured := isScreenCaptured s |}.
Proof.
  intros chunk s Hidle. unfold appendStreamContent. cbn [messages isStreaming].
  rewrite Hidle. repeat split.
Qed.

Lemma C8_append_while_idle_keeps_messages_witness :
  isStreaming (consume clock0 [lit "Hello"] initialState) = false /\
  messages
    (appendStreamContent (lit "late")
       (consume clock0 [lit "Hello"] initialState))
  = messages (consume clock0 [lit "Hello"] initialState).
Proof.
  split; [reflexivity|].
  apply (C8_append_while_idle_keeps_messages (lit "late")
           (consume clock0 [lit "Hello"] initialState)).
  reflexivity.
Defined.

(** ** [JSON.parse] never runs out of fuel *)

Local Open Scope nat_scope.

Lemma skip_ws_length (s : jsstring) :
  List.length (skip_ws s) <= List.length s.
Proof.
  induction s as [|c r IH]; simpl; [lia|].
  destruct (isJsonWs c); simpl; lia.
Qed.

Lemma skip_ws_cons (s : jsstring) (c : N) (r : jsstring) :
  skip_ws s = c :: r -> List.length r < List.length s.
Proof.
  intros H. pose proof (skip_ws_length s) as L.
  rewrite H in L. simpl in L. lia.
Qed.

Lemma parse_string_body_length :
  forall (n : nat) (s acc k r : jsstring),
    List.length s <= n ->
    parse_string_body s acc = Some (k, r) ->
    List.length r < List.length s.
Proof.
  induction n as [|n IH]; intros s acc k r Hn H.
  - destruct s; simpl in *; [discriminate | lia].
  - destruct s as [|c s1]; simpl in H; [discriminate|].
    destruct (c =? 34)%N.
    { injection H as _ <-. simpl. lia. }
    destruct (c =? 92)%N.
    + destruct s1 as [|e s2]; [discriminate|].
      destruct (e =? 117)%N.
      * destruct s2 as [|h1 [|h2 [|h3 [|h4 s3]]]]; try discriminate.
        destruct (hexval h1), (hexval h2), (hexval h3), (hexval h4);
          try discriminate.
        apply IH in H; simpl in *; lia.
      * destruct (simple_escape e); [|discriminate].
        apply IH in H; simpl in *; lia.
    + destruct (c <? 32)%N; [discriminate|].
      apply IH in H; simpl in *; lia.
Qed.

Lemma take_digits_length (s ds r : jsstring) :
  take_digits s = (ds, r) ->
  List.length r + List.length ds = List.length s.
Proof.
  revert ds r. induction s as [|c s IH]; intros ds r H; simpl in H.
  - injection H as <- <-. reflexivity.
  - destruct (isDigit c).
    + destruct (take_digits s) as [ds' r'] eqn:E.
      injection H as <- <-. specialize (IH _ _ eq_refl). simpl. lia.
    + injection H as <- <-. simpl. lia.
Qed.

Lemma parse_number_length (s : jsstring) (d : Decimal) (r : jsstring) :
  parse_number s = Some (d, r) -> List.length r < List.length s.
Proof.
  unfold parse_number. intros H.
  assert (Hint : forall s1 ip s2,
             match s1 with
             | c :: r0 =>
                 if (c =? 48)%N then Some ([c], r0)
                 else if isDigit c then Some (take_digits s1) else None
             | [] => None
             end = Some (ip, s2) ->
             List.length s2 < List.length s1).
  { intros s1 ip s2 E. destruct s1 as [|c r0]; [discriminate|].
    destruct (c =? 48)%N.
    - injection E as _ <-. simpl. lia.
    - destruct (isDigit c) eqn:Dg; [|discriminate].
      injection E as E. simpl in E. rewrite Dg in E.
      destruct (take_digits r0) as [ds' r'] eqn:T.
      injection E as _ <-. apply take_digits_length in T. simpl. lia. }
  assert (Hfrac : forall s2 fp s3,
             match s2 with
             | c :: r0 =>
                 if (c =? 46)%N then
                   match take_digits r0 with
                   | ([], _) => None
                   | (fp, r') => Some (fp, r')
                   end
                 else Some ([], s2)
             | [] => Some ([], s2)
             end = Some (fp, s3) ->
             List.length s3 <= List.length s2).
  { intros s2 fp s3 E. destruct s2 as [|c r0].
    - injection E as _ <-. lia.
    - destruct (c =? 46)%N.
      + destruct (take_digits r0) as [[|x ds'] r'] eqn:T; [discriminate|].
        injection E as _ <-. apply take_digits_length in T. simpl in *. lia.
      + injection E as _ <-. lia. }
  assert (Hexp : forall s3 e s4,
             match s3 with
             | c :: r0 =>
                 if ((c =? 101) || (c =? 69))%N then
                   let (eneg, r1) :=
                     match r0 with
                     | c2 :: r' =>
                         if (c2 =? 43)%N then (false, r')
                         else if (c2 =? 45)%N then (true, r')
                         else (false, r0)
                     | [] => (false, r0)
                     end in
                   match take_digits r1 with
                   | ([], _) => None
                   | (ed, r2) =>
                       let e := Z.of_N (digits_value ed) in
                       Some ((if eneg then - e else e)%Z, r2)
                   end
                 else Some (0%Z, s3)
             | [] => Some (0%Z, s3)
             end = Some (e, s4) ->
             List.length s4 <= List.length s3).
  { intros s3 e s4 E. destruct s3 as [|c r0].
    - injection E as _ <-. lia.
    - destruct ((c =? 101) || (c =? 69))%N.
      + assert (Hr1 : forall eneg r1,
                   match r0 with
                   | c2 :: r' =>
                       if (c2 =? 43)%N then (false, r')
                       else if (c2 =? 45)%N then (true, r')
                       else (false, r0)
                   | [] => (false, r0)
                   end = (eneg, r1) ->
                   List.length r1 <= List.length r0).
        { intros eneg r1 E1. destruct r0 as [|c2 r'].
          - injection E1 as _ <-. lia.
          - destruct (c2 =? 43)%N; [injection E1 as _ <-; simpl; lia|].
            destruct (c2 =? 45)%N; injection E1 as _ <-; simpl; lia. }
        destruct (match r0 with
                  | c2 :: r' =>
                      if (c2 =? 43)%N then (false, r')
                      else if (c2 =? 45)%N then (true, r')
                      else (false, r0)
                  | [] => (false, r0)
                  end) as [eneg r1] eqn:E1.
        specialize (Hr1 _ _ eq_refl).
        destruct (take_digits r1) as [[|x ds'] r2] eqn:T; [discriminate|].
        injection E as _ <-. apply take_digits_length in T.
        simpl in *. lia.
      + injection E as _ <-. lia. }
  destruct (match s with
            | c :: r0 => if (c =? 45)%N then (true, r0) else (false, s)
            | [] => (false, s)
            end) as [sign s1] eqn:Es.
  assert (Hs1 : List.length s1 <= List.length s).
  { destruct s as [|c r0].
    - injection Es as _ <-. lia.
    - destruct (c =? 45)%N; injection Es as _ <-; simpl; lia. }
  match type of H with
  | match ?x with _ => _ end = _ => destruct x as [[ip s2]|] eqn:Ei
  end; [|discriminate].
  apply Hint in Ei.
  match type of H with
  | match ?x with _ => _ end = _ => destruct x as [[fp s3]|] eqn:Ef
  end; [|discriminate].
  apply Hfrac in Ef.
  match type of H with
  | match ?x with _ => _ end = _ => destruct x as [[e s4]|] eqn:Ee
  end; [|discriminate].
  apply Hexp in Ee.
  injection H as _ <-. lia.
Qed.

Ltac parse_done :=
  split;
  [ discriminate
  | let H := fresh in
    intros ? ? H; try discriminate H;
    injection H as _ <-; simpl in *; lia ].

Lemma value_step (f : nat) : elements_ok f -> members_ok f -> value_ok (S f).
Proof.
  intros He Hm s Hlen. cbn [parse_value].
  pose proof (skip_ws_length s) as Lws.
  destruct (skip_ws s) as [|c r] eqn:Ews; [parse_done|].
  simpl in Lws.
  destruct (c =? 123)%N.
  { pose proof (skip_ws_length r) as L2.
    destruct (skip_ws r) as [|c2 r2] eqn:E2; [parse_done|].
    destruct (c2 =? 125)%N; [parse_done|].
    destruct (Hm r [] ltac:(lia)) as [Hne Hlt].
    destruct (parse_members f r []) as [ps r'| |]; [| parse_done | congruence].
    specialize (Hlt _ _ eq_refl). parse_done. }
  destruct (c =? 91)%N.
  { pose proof (skip_ws_length r) as L2.
    destruct (skip_ws r) as [|c2 r2] eqn:E2; [parse_done|].
    destruct (c2 =? 93)%N; [parse_done|].
    destruct (He r [] ltac:(lia)) as [Hne Hlt].
    destruct (parse_elements f r []) as [vs r'| |]; [| parse_done | congruence].
    specialize (Hlt _ _ eq_refl). parse_done. }
  destruct (c =? 34)%N.
  { destruct (parse_string_body r []) as [[str r']|] eqn:Eb; [|parse_done].
    apply (parse_string_body_length (List.length r)) in Eb; [|lia].
    parse_done. }
  destruct (startsWith (lit "true") (c :: r)).
  { pose proof (length_skipn 4 (c :: r)). parse_done. }
  destruct (startsWith (lit "false") (c :: r)).
  { pose proof (length_skipn 5 (c :: r)). parse_done. }
  destruct (startsWith (lit "null") (c :: r)).
  { pose proof (length_skipn 4 (c :: r)). parse_done. }
  destruct (parse_number (c :: r)) as [[d r']|] eqn:En; [|parse_done].
  apply parse_number_length in En. parse_done.
Qed.

Lemma elements_step (f : nat) :
  value_ok f -> elements_ok f -> elements_ok (S f).
Proof.
  intros Hv He s acc Hlen. cbn [parse_elements].
  destruct (Hv s ltac:(lia)) as [Hne Hlt].
  destruct (parse_value f s) as [v r| |]; [| parse_done | congruence].
  specialize (Hlt _ _ eq_refl).
  pose proof (skip_ws_length r) as L2.
  destruct (skip_ws r) as [|c r'] eqn:E2; [parse_done|].
  simpl in L2.
  destruct (c =? 44)%N.
  { destruct (He r' (v :: acc) ltac:(lia)) as [Hne' Hlt'].
    split; [exact Hne'|].
    intros vs r0 H0. specialize (Hlt' _ _ H0). lia. }
  destruct (c =? 93)%N; parse_done.
Qed.

Lemma members_step (f : nat) :
  value_ok f -> members_ok f -> members_ok (S f).
Proof.
  intros Hv Hm s acc Hlen. cbn [parse_members].
  pose proof (skip_ws_length s) as Lws.
  destruct (skip_ws s) as [|c r] eqn:Ews; [parse_done|].
  simpl in Lws.
  destruct (c =? 34)%N; [|parse_done].
  destruct (parse_string_body r []) as [[key r1]|] eqn:Eb; [|parse_done].
  apply (parse_string_body_length (List.length r)) in Eb; [|lia].
  pose proof (skip_ws_length r1) as L1.
  destruct (skip_ws r1) as [|c1 r2] eqn:E1; [parse_done|].
  simpl in L1.
  destruct (c1 =? 58)%N; [|parse_done].
  destruct (Hv r2 ltac:(lia)) as [Hne Hlt].
  destruct (parse_value f r2) as [v r3| |]; [| parse_done | congruence].
  specialize (Hlt _ _ eq_refl).
  pose proof (skip_ws_length r3) as L3.
  destruct (skip_ws r3) as [|c3 r4] eqn:E3; [parse_done|].
  simpl in L3.
  destruct (c3 =? 44)%N.
  { destruct (Hm r4 ((key, v) :: acc) ltac:(lia)) as [Hne' Hlt'].
    split; [exact Hne'|].
    intros ps r0 H0. specialize (Hlt' _ _ H0). lia. }
  destruct (c3 =? 125)%N; parse_done.
Qed.

Lemma descent_ok (f : nat) : value_ok f /\ elements_ok f /\ members_ok f.
Proof.
  induction f as [|f (Hv & He & Hm)].
  - split; [|split]; intros s; intros; lia.
  - split; [|split].
    + now apply value_step.
    + now apply elements_step.
    + now apply members_step.
Qed.

(** [JSON.parse] decides every input: the descent is given fuel it cannot
    exhaust, so [None] always stands for a [SyntaxError]. *)
Lemma JSON_parse_fuel (s : jsstring) :
  parse_value (enough s) s <> POutOfFuel.
Proof.
  destruct (descent_ok (enough s)) as [Hv _].
  apply Hv. unfold enough. lia.
Qed.

(** ** Lines *)

Lemma split_lf_cut (s : jsstring) :
  split_lf s = fst (cut s) ++ [snd (cut s)].
Proof.
  induction s as [|c r IH]; simpl; [reflexivity|].
  rewrite IH. destruct (cut r) as [ls last]. simpl.
  destruct (c =? 10)%N; [reflexivity|].
  destruct ls; reflexivity.
Qed.

Lemma pop_snoc {A : Type} (l : list A) (x : A) :
  pop (l ++ [x]) = (Some x, l).
Proof.
  unfold pop. rewrite rev_unit, rev_involutive. reflexivity.
Qed.

Lemma orEmpty_Some (s : jsstring) : orEmpty (Some s) = s.
Proof. destruct s; reflexivity. Qed.

Lemma cut_app (a b : jsstring) :
  cut (a ++ b) =
  (fst (cut a) ++ fst (cut (snd (cut a) ++ b)),
   snd (cut (snd (cut a) ++ b))).
Proof.
  induction a as [|c a IH]; simpl.
  - now destruct (cut b).
  - rewrite IH. destruct (cut a) as [la ra]. simpl.
    destruct (c =? 10)%N eqn:E; [reflexivity|].
    destruct la as [|l la']; simpl.
    + rewrite E. now destruct (cut (ra ++ b)) as [[|x xs] y].
    + reflexivity.
Qed.

Lemma cut_rest_no_line (s : jsstring) : fst (cut (snd (cut s))) = [].
Proof.
  induction s as [|c r IH]; simpl; [reflexivity|].
  destruct (cut r) as [ls last]. simpl in *.
  destruct (c =? 10)%N eqn:E; simpl; [exact IH|].
  destruct ls as [|l ls']; simpl; [|exact IH].
  rewrite E. destruct (cut last) as [ls2 y]. simpl in IH. subst ls2.
  reflexivity.
Qed.

Lemma cut_no_line (s : jsstring) : fst (cut s) = [] -> snd (cut s) = s.
Proof.
  induction s as [|c r IH]; simpl; [reflexivity|].
  destruct (cut r) as [ls last]. simpl in *.
  destruct (c =? 10)%N; simpl; [discriminate|].
  destruct ls as [|l ls']; simpl; [|discriminate].
  intros _. now rewrite IH.
Qed.

Lemma process_lines_app (l1 l2 : list jsstring) :
  process_lines (l1 ++ l2) =
  (fst (process_lines l1) ++
   (if snd (process_lines l1) then [] else fst (process_lines l2)),
   snd (process_lines l1) || snd (process_lines l2)).
Proof.
  induction l1 as [|l l1 IH]; simpl.
  - now destruct (process_lines l2).
  - destruct (process_line l); simpl.
    + exact IH.
    + rewrite IH. destruct (process_lines l1) as [ys d]. reflexivity.
    + reflexivity.
Qed.

(** The loop over the chunks reads what one pass over the whole text
    reads, provided the text held back contains no line feed. *)
Lemma stream_loop_parse_text (cs : list (list byte)) (fail : option JSError) :
  forall buffer,
    fst (cut buffer) = [] ->
    stream_loop buffer cs fail =
    parse_text buffer (List.concat (List.map Utf8.toString cs)) fail.
Proof.
  induction cs as [|chunk rest IH]; intros buffer Hb.
  - unfold parse_text. cbn [List.map List.concat stream_loop]. rewrite app_nil_r, Hb. reflexivity.
  - cbn [stream_loop List.map List.concat].
    rewrite split_lf_cut, pop_snoc, orEmpty_Some.
    unfold parse_text. rewrite app_assoc.
    set (b1 := buffer ++ Utf8.toString chunk).
    set (text := List.concat (List.map Utf8.toString rest)).
    rewrite (cut_app b1 text). cbn [fst snd].
    rewrite process_lines_app.
    destruct (process_lines (fst (cut b1))) as [ys fin].
    cbn [fst snd]. destruct fin; simpl.
    + now rewrite app_nil_r.
    + rewrite (IH _ (cut_rest_no_line b1)). unfold parse_text. fold text.
      destruct (process_lines (fst (cut (snd (cut b1) ++ text))))
        as [ys2 fin2].
      reflexivity.
Qed.

(** The parser does not depend on how the decoded text is cut into
    chunks. *)
Lemma stream_loop_text_invariant (cs1 cs2 : list (list byte))
    (fail : option JSError) :
  List.concat (List.map Utf8.toString cs1) =
  List.concat (List.map Utf8.toString cs2) ->
  stream_loop [] cs1 fail = stream_loop [] cs2 fail.
Proof.
  intros H.
  rewrite !stream_loop_parse_text by reflexivity.
  now rewrite H.
Qed.

Lemma decode_ascii (bs : list N) :
  forallb (fun b => b <=? 0x7F)%N bs = true ->
  Utf8.decode None bs = bs.
Proof.
  induction bs as [|b bs IH]; simpl; [reflexivity|].
  intros H. apply andb_prop in H as [Hb Hbs].
  unfold Utf8.lead. rewrite Hb. simpl. now rewrite IH.
Qed.

Lemma utf16_small (l : list N) :
  forallb (fun b => b <=? 0x7F)%N l = true ->
  flat_map Utf8.utf16 l = l.
Proof.
  induction l as [|c l IH]; simpl; [reflexivity|].
  intros H. apply andb_prop in H as [Hc Hl].
  rewrite IH by assumption.
  unfold Utf8.utf16.
  apply N.leb_le in Hc.
  destruct (c <? 0x10000)%N eqn:E; [reflexivity|].
  apply N.ltb_ge in E. lia.
Qed.

Lemma toString_ascii (chunk : list byte) :
  forallb Utf8.isAscii chunk = true ->
  Utf8.toString chunk = List.map Byte.to_N chunk.
Proof.
  intros H. unfold Utf8.toString.
  assert (H' : forallb (fun b => b <=? 0x7F)%N (List.map Byte.to_N chunk)
               = true).
  { clear -H. induction chunk as [|b bs IH]; simpl in *; [reflexivity|].
    apply andb_prop in H as [Hb Hbs]. unfold Utf8.isAscii in Hb.
    rewrite Hb. simpl. now apply IH. }
  rewrite decode_ascii by assumption. now apply utf16_small.
Qed.

Lemma concat_toString_ascii (cs : list (list byte)) :
  forallb Utf8.isAscii (List.concat cs) = true ->
  List.concat (List.map Utf8.toString cs) =
  List.map Byte.to_N (List.concat cs).
Proof.
  induction cs as [|c cs IH]; simpl; [reflexivity|].
  rewrite forallb_app. intros H. apply andb_prop in H as [Hc Hcs].
  rewrite map_app, toString_ascii, IH by assumption. reflexivity.
Qed.

(** For a response made of ASCII bytes only, the parser does not depend on
    how the bytes are cut into chunks. *)
Lemma stream_loop_ascii_invariant (cs1 cs2 : list (list byte))
    (fail : option JSError) :
  List.concat cs1 = List.concat cs2 ->
  forallb Utf8.isAscii (List.concat cs1) = true ->
  stream_loop [] cs1 fail = stream_loop [] cs2 fail.
Proof.
  intros Heq Hascii.
  apply stream_loop_text_invariant.
  rewrite !concat_toString_ascii; congruence.
Qed.

(** ** The relay *)

Lemma process_lines_skip (pre post : list jsstring) (l : jsstring) :
  process_line l = Skip ->
  process_lines (pre ++ l :: post) = process_lines (pre ++ post).
Proof.
  intros H. rewrite !process_lines_app. simpl. rewrite H. reflexivity.
Qed.

Lemma process_lines_done (pre post : list jsstring) (l : jsstring) :
  process_line l = Done ->
  process_lines (pre ++ l :: post) = (fst (process_lines pre), true).
Proof.
  intros H. rewrite process_lines_app. simpl. rewrite H. simpl.
  destruct (snd (process_lines pre)).
  - now rewrite app_nil_r.
  - now rewrite app_nil_r, orb_true_r.
Qed.

(** What the loop does with a line that carries the prefix. *)
Lemma process_line_data (payload : jsstring) :
  process_line (lit "data: " ++ payload) =
  if str_eqb payload (lit "[DONE]") then Done
  else match JSON_parse payload with
       | None => Skip
       | Some parsed =>
           match deltaContent parsed with
           | None => Skip
           | Some text => if truthy text then Yield text else Skip
           end
       end.
Proof. reflexivity. Qed.

Lemma process_line_yield (l : jsstring) (v : Value) :
  process_line l = Yield v -> truthy v = true.
Proof.
  unfold process_line. intros H.
  destruct (startsWith (lit "data: ") l); [|discriminate].
  destruct (str_eqb (slice 6 l) (lit "[DONE]")); [discriminate|].
  destruct (JSON_parse (slice 6 l)) as [parsed|]; [|discriminate].
  destruct (deltaContent parsed) as [text|]; [|discriminate].
  destruct (truthy text) eqn:T; [|discriminate].
  injection H as <-. exact T.
Qed.

Lemma process_lines_truthy (ls : list jsstring) :
  Forall (fun v => truthy v = true) (fst (process_lines ls)).
Proof.
  induction ls as [|l ls IH]; simpl; [constructor|].
  destruct (process_line l) eqn:E; simpl.
  - exact IH.
  - destruct (process_lines ls) as [ys d]. simpl in *.
    constructor; [|exact IH]. now apply process_line_yield in E.
  - constructor.
Qed.

(** With a key, the streamed call issues its one request and turns an
    exception of the inner generator into one more chunk. *)
Lemma sendMessageStream_configured (svc : LLMService)
    (http : Request -> Completion ResponseStream)
    (msg : jsstring) (img : option jsstring) :
  nonEmpty (apiKey svc) = true ->
  sendMessageStream svc http msg img =
  let inner := callOpenAIStream svc http (buildMessages msg img) in
  mkOutcome
    match completion (result inner) with
    | Return _ =>
        {| yields := yields (result inner); completion := Return tt |}
    | Throw e =>
        {| yields :=
             yields (result inner) ++ [VString (getErrorResponse svc e)];
           completion := Return tt |}
    end
    (requests inner).
Proof.
  intros H. unfold sendMessageStream. rewrite H. reflexivity.
Qed.

(** The streamed call never completes with an exception. *)
Lemma sendMessageStream_never_throws (svc : LLMService)
    (http : Request -> Completion ResponseStream)
    (msg : jsstring) (img : option jsstring) :
  completion (result (sendMessageStream svc http msg img)) = Return tt.
Proof.
  unfold sendMessageStream.
  destruct (negb (nonEmpty (apiKey svc))); [reflexivity|].
  cbn [result].
  destruct (completion (result (callOpenAIStream svc http
                                  (buildMessages msg img))));
    reflexivity.
Qed.

(** The relay ends every stream with the end event: the error event is
    never sent. *)
Lemma relay_ends_normally (svc : LLMService)
    (http : Request -> Completion ResponseStream)
    (msg : jsstring) (img : option jsstring) :
  relay (result (sendMessageStream svc http msg img))
  = List.map StreamChunk
      (yields (result (sendMessageStream svc http msg img)))
    ++ [StreamEnd].
Proof.
  unfold relay. now rewrite sendMessageStream_never_throws.
Qed.



Lemma hello_stream (cs : list (list byte)) :
  List.concat cs = Utf8.bytes hello_text ->
  stream_loop [] cs None =
  {| yields := [VString (lit "Hel"); VString (lit "lo")];
     completion := Return tt |}.
Proof.
  intros H.
  rewrite (stream_loop_ascii_invariant cs [Utf8.bytes hello_text] None).
  - vm_compute. reflexivity.
  - rewrite H. cbn [List.concat]. now rewrite app_nil_r.
  - rewrite H. vm_compute. reflexivity.
Qed.

(** C4, as stated, fails: a delta that is not a string is surfaced when it
    is truthy. The frame whose delta content is [true] yields [true]. *)
Lemma C4_truthy_non_string_delta_is_yielded :
  yields
    (result
       (sendMessageStream svc0
          (respond [Utf8.bytes (frame_true ++ [10]%N)] None)
          (lit "hi") None))
  = [VBool true].
Proof. vm_compute. reflexivity. Qed.

(** C4, amended. The streamed response is read line by line: a line
    without the prefix [data: ] is ignored; a line whose payload is
    [[DONE]] ends the sequence; the payload of any other data line is
    parsed and its [choices[0].delta.content] is yielded only when it is
    truthy, which for a string means non-empty; a payload that is not JSON
    is skipped and the lines after it are still read. The three frames of
    the example, however they are cut into transport chunks, yield [Hel]
    and [lo], which the consumer commits as [Hello]. *)
Theorem C4_stream_is_read_line_by_line :
  forall (pre post : list jsstring) (other payload : jsstring)
         (cs : list (list byte)) (k1 k2 : Clock) (s : ChatState),
    startsWith (lit "data: ") other = false ->
    str_eqb payload (lit "[DONE]") = false ->
    JSON_parse payload = None ->
    List.concat cs = Utf8.bytes hello_text ->
    process_lines (pre ++ other :: post) = process_lines (pre ++ post) /\
    process_lines (pre ++ frame_DONE :: post)
      = (fst (process_lines pre), true) /\
    (forall p,
       process_line (lit "data: " ++ p) =
       if str_eqb p (lit "[DONE]") then Done
       else match JSON_parse p with
            | None => Skip
            | Some parsed =>
                match deltaContent parsed with
                | None => Skip
                | Some text => if truthy text then Yield text else Skip
                end
            end) /\
    Forall (fun v => truthy v = true /\ v <> VString [])
      (fst (process_lines pre)) /\
    process_lines (pre ++ (lit "data: " ++ payload) :: post)
      = process_lines (pre ++ post) /\
    parse_value (enough payload) payload <> POutOfFuel /\
    result (sendMessageStream svc0 (respond cs None) (lit "hi") None)
      = {| yields := [VString (lit "Hel"); VString (lit "lo")];
           completion := Return tt |} /\
    (exists s',
       dispatch_all k1 k2
         (relay
            (result
               (sendMessageStream svc0 (respond cs None) (lit "hi") None)))
         (startStreaming s) = Some s' /\
       isStreaming s' = false /\
       messages s' = messages s ++ [newMessage k1 (lit "Hello") assistant]).
Proof.
  intros pre post other payload cs k1 k2 s Hother Hsent Hbad Hcs.
  assert (Hres :
            result (sendMessageStream svc0 (respond cs None) (lit "hi") None)
            = {| yields := [VString (lit "Hel"); VString (lit "lo")];
                 completion := Return tt |}).
  { rewrite sendMessageStream_configured by reflexivity.
    cbn [callOpenAIStream respond result chunks failure].
    rewrite (hello_stream cs Hcs). reflexivity. }
  split; [|split; [|split; [|split; [|split; [|split; [|split]]]]]].
  - apply process_lines_skip. unfold process_line. now rewrite Hother.
  - apply process_lines_done. reflexivity.
  - exact process_line_data.
  - eapply Forall_impl; [|apply process_lines_truthy].
    intros v Hv. split; [exact Hv|]. intros ->. discriminate.
  - apply process_lines_skip.
    rewrite process_line_data, Hsent, Hbad. reflexivity.
  - apply JSON_parse_fuel.
  - exact Hres.
  - rewrite Hres. eexists. split; [reflexivity|]. split; reflexivity.
Qed.

Lemma C4_stream_is_read_line_by_line_witness :
  process_lines
    ([frame_Hel] ++ lit ": keep-alive" :: [frame_lo; frame_DONE])
  = process_lines ([frame_Hel] ++ [frame_lo; frame_DONE]) /\
  process_lines
    ([frame_Hel] ++ (lit "data: " ++ lit "{oops") :: [frame_lo; frame_DONE])
  = process_lines ([frame_Hel] ++ [frame_lo; frame_DONE]) /\
  result
    (sendMessageStream svc0
       (respond
          [Utf8.bytes (frame_Hel ++ [10; 10]%N);
           Utf8.bytes (frame_lo ++ [10; 10]%N);
           Utf8.bytes (frame_DONE ++ [10; 10]%N)] None)
       (lit "hi") None)
  = {| yields := [VString (lit "Hel"); VString (lit "lo")];
       completion := Return tt |}.
Proof.
  destruct (C4_stream_is_read_line_by_line
              [frame_Hel] [frame_lo; frame_DONE]
              (lit ": keep-alive") (lit "{oops")
              [Utf8.bytes (frame_Hel ++ [10; 10]%N);
               Utf8.bytes (frame_lo ++ [10; 10]%N);
               Utf8.bytes (frame_DONE ++ [10; 10]%N)]
              clock0 clock0 initialState
              eq_refl eq_refl eq_refl eq_refl)
    as (H1 & _ & _ & _ & H5 & _ & H7 & _).
  exact (conj H1 (conj H5 H7)).
Defined.

(** With a key, the blocking call issues its one request; whatever the
    [try] block throws becomes the text for that error. *)
Lemma sendMessage_rejected (svc : LLMService)
    (http : Request -> Completion Value)
    (msg : jsstring) (img : option jsstring) (e : JSError) :
  nonEmpty (apiKey svc) = true ->
  http (callOpenAI_request svc (buildMessages msg img)) = Throw e ->
  result (sendMessage svc http msg img)
  = Return (VString (getErrorResponse svc e)).
Proof.
  intros Hk He. unfold sendMessage. rewrite Hk. cbn [negb result].
  rewrite He. reflexivity.
Qed.

(** The blocking call never completes with an exception either. *)
Lemma sendMessage_never_throws (svc : LLMService)
    (http : Request -> Completion Value)
    (msg : jsstring) (img : option jsstring) :
  exists v, result (sendMessage svc http msg img) = Return v.
Proof.
  unfold sendMessage.
  destruct (negb (nonEmpty (apiKey svc))); [eexists; reflexivity|].
  cbn [result].
  destruct (http (callOpenAI_request svc (buildMessages msg img)))
    as [response|e]; [|eexists; reflexivity].
  destruct (messageContent response) as [text|]; [|eexists; reflexivity].
  destruct (truthy text); eexists; reflexivity.
Qed.

(** C5. If the inner generator throws, also after it has yielded chunks,
    the streamed call yields those chunks and then exactly one more, the
    text that the blocking call returns for the same error, and ends
    normally: the main process sees chunk events and the end event, never
    an exception. *)
Theorem C5_stream_error_becomes_one_fallback_chunk :
  forall (svc : LLMService) (http : Request -> Completion ResponseStream)
         (http1 : Request -> Completion Value)
         (msg : jsstring) (img : option jsstring)
         (ys : list Value) (e : JSError),
    nonEmpty (apiKey svc) = true ->
    result (callOpenAIStream svc http (buildMessages msg img))
      = {| yields := ys; completion := Throw e |} ->
    http1 (callOpenAI_request svc (buildMessages msg img)) = Throw e ->
    result (sendMessageStream svc http msg img)
      = {| yields := ys ++ [VString (getErrorResponse svc e)];
           completion := Return tt |} /\
    result (sendMessage svc http1 msg img)
      = Return (VString (getErrorResponse svc e)) /\
    relay (result (sendMessageStream svc http msg img))
      = List.map StreamChunk ys ++
        [StreamChunk (VString (getErrorResponse svc e)); StreamEnd].
Proof.
  intros svc http http1 msg img ys e Hk Hinner H1.
  assert (Hres : result (sendMessageStream svc http msg img)
                 = {| yields := ys ++ [VString (getErrorResponse svc e)];
                      completion := Return tt |}).
  { rewrite sendMessageStream_configured by assumption.
    cbn [result]. rewrite Hinner. reflexivity. }
  split; [exact Hres|]. split.
  - now apply sendMessage_rejected.
  - rewrite Hres. unfold relay. cbn [yields completion].
    rewrite map_app, <- app_assoc. reflexivity.
Qed.

Lemma C5_stream_error_becomes_one_fallback_chunk_witness :
  result
    (sendMessageStream svc0
       (respond [Utf8.bytes (frame_Hel ++ [10; 10]%N)]
          (Some connectionReset))
       (lit "hi") None)
  = {| yields :=
         [VString (lit "Hel");
          VString (lit "An unexpected error occurred. Please try again.")];
       completion := Return tt |}.
Proof.
  apply (C5_stream_error_becomes_one_fallback_chunk svc0
           (respond [Utf8.bytes (frame_Hel ++ [10; 10]%N)]
              (Some connectionReset))
           (fun _ => Throw connectionReset)
           (lit "hi") None [VString (lit "Hel")] connectionReset).
  - reflexivity.
  - vm_compute. reflexivity.
  - reflexivity.
Defined.

(** C6. When the HTTP call is rejected with status 401, 429 or 404, the
    blocking call returns the guidance for that status; the guidance for
    404 carries the configured model name between quotes. *)
Theorem C6_status_guidance :
  forall (svc : LLMService) (msg : jsstring) (img : option jsstring)
         (code : option jsstring),
    nonEmpty (apiKey svc) = true ->
    result
      (sendMessage svc (fun _ => Throw (AxiosError (Some 401%N) code))
         msg img)
    = Return
        (VString
           (lit "Invalid API key. Please check your OpenAI API key in the environment variables.")) /\
    result
      (sendMessage svc (fun _ => Throw (AxiosError (Some 429%N) code))
         msg img)
    = Return
        (VString (lit "Rate limit exceeded. Please try again in a moment.")) /\
    result
      (sendMessage svc (fun _ => Throw (AxiosError (Some 404%N) code))
         msg img)
    = Return
        (VString
           (lit "Model " ++ dquote ++ model svc ++ dquote ++
            requote
              (lit " not found. Try using 'gpt-4o' or 'gpt-4' instead. Update your OPENAI_MODEL in the .env file."))).
Proof.
  intros svc msg img code Hk.
  repeat split;
    (erewrite sendMessage_rejected; [|exact Hk|reflexivity]);
    reflexivity.
Qed.

Lemma C6_status_guidance_witness :
  result
    (sendMessage svc0 (fun _ => Throw (AxiosError (Some 404%N) None))
       (lit "hello") None)
  = Return
      (VString
         (requote
            (lit "Model 'gpt-4o' not found. Try using 'gpt-4o' or 'gpt-4' instead. Update your OPENAI_MODEL in the .env file."))).
Proof.
  exact (proj2 (proj2 (C6_status_guidance svc0 (lit "hello") None None
                         eq_refl))).
Defined.

(** A relay that was constructed has a key: the mock answer of
    [sendMessage] and [sendMessageStream] is out of its reach. *)
Lemma constructed_is_configured (env : Env) (svc : LLMService) :
  new_LLMService env = Return svc -> isConfigured svc = true.
Proof.
  unfold new_LLMService, isConfigured. intros H.
  destruct (nonEmpty (orElse (OPENAI_API_KEY env) [])) eqn:E;
    simpl in H; [|discriminate].
  injection H as <-. exact E.
Qed.

(** What the two calls would do on a relay without a key: no request, and
    the mock answer. *)
Lemma unconfigured_calls_are_mocked (svc : LLMService)
    (http1 : Request -> Completion Value)
    (http2 : Request -> Completion ResponseStream)
    (msg : jsstring) (img : option jsstring) :
  apiKey svc = [] ->
  sendMessage svc http1 msg img
    = mkOutcome
        (Return (VString (getMockResponse msg (hasScreen img)))) [] /\
  sendMessageStream svc http2 msg img
    = mkOutcome
        {| yields := [VString (getMockResponse msg (hasScreen img))];
           completion := Return tt |} [].
Proof.
  intros H. unfold sendMessage, sendMessageStream. rewrite H. split; reflexivity.
Qed.

(** C7 at the failing input: with no key in the environment, or an empty
    one, the constructor of the relay throws, and with it the constructor
    of the application: a request for an answer, blocking or streamed,
    finds no relay to return the mock answer. *)
Lemma C7_without_credential_the_constructor_throws :
  forall (http1 : Request -> Completion Value)
         (http2 : Request -> Completion ResponseStream)
         (img : option jsstring),
    new_LLMService {| OPENAI_API_KEY := None; OPENAI_MODEL := None |}
      = Throw (OtherError keyNotFound) /\
    new_LLMService {| OPENAI_API_KEY := Some []; OPENAI_MODEL := None |}
      = Throw (OtherError keyNotFound) /\
    start_and_send {| OPENAI_API_KEY := None; OPENAI_MODEL := None |}
      http1 (lit "hello") img
      = Throw (OtherError keyNotFound) /\
    start_and_stream {| OPENAI_API_KEY := None; OPENAI_MODEL := None |}
      http2 (lit "hello") img
      = Throw (OtherError keyNotFound).
Proof. intros. repeat split. Qed.

(** C9. The requests a call issues: none without a key, otherwise one
    [POST] to [baseURL/chat/completions] whose body has the fields
    [model], [messages], [max_tokens] and [temperature], and [stream] set
    to [true] on the streaming path, with the bearer token in the
    [Authorization] header and a timeout of 30000 ms. *)
Theorem C9_outbound_request :
  forall (svc : LLMService) (http1 : Request -> Completion Value)
         (http2 : Request -> Completion ResponseStream)
         (msg : jsstring) (img : option jsstring),
    let r1 := callOpenAI_request svc (buildMessages msg img) in
    let r2 := callOpenAIStream_request svc (buildMessages msg img) in
    requests (sendMessage svc http1 msg img)
      = (if nonEmpty (apiKey svc) then [r1] else []) /\
    requests (sendMessageStream svc http2 msg img)
      = (if nonEmpty (apiKey svc) then [r2] else []) /\
    method r1 = POST /\ method r2 = POST /\
    url r1 = baseURL svc ++ lit "/chat/completions" /\
    url r2 = baseURL svc ++ lit "/chat/completions" /\
    data r1 =
      [(lit "model", VString (model svc));
       (lit "messages", buildMessages msg img);
       (lit "max_tokens", VNumber (int_number 500));
       (lit "temperature",
        VNumber {| neg := false; mant := 7; exp10 := (-1)%Z |})] /\
    data r2 = data r1 ++ [(lit "stream", VBool true)] /\
    In (lit "Authorization", lit "Bearer " ++ apiKey svc) (headers r1) /\
    In (lit "Authorization", lit "Bearer " ++ apiKey svc) (headers r2) /\
    timeout r1 = 30000%N /\ timeout r2 = 30000%N.
Proof.
  intros svc http1 http2 msg img r1 r2.
  split; [|split].
  - unfold sendMessage. destruct (nonEmpty (apiKey svc)); reflexivity.
  - unfold sendMessageStream. destruct (nonEmpty (apiKey svc)); reflexivity.
  - repeat split; try reflexivity; left; reflexivity.
Qed.

(** C10 at the failing input. The line answering with the letter e-acute
    is sent once in one chunk and once cut between the two bytes of that
    letter: the same bytes, and yet the first stream yields the letter and
    the second yields two replacement characters. *)
Lemma C10_chunk_boundary_inside_a_character :
  let head :=
    Utf8.bytes (requote (lit "data: {'choices':[{'delta':{'content':'")) in
  let tail := Utf8.bytes (requote (lit "'}}]}") ++ [10]%N) in
  let whole := [head ++ [xc3; xa9] ++ tail] in
  let halves := [head ++ [xc3]; [xa9] ++ tail] in
  List.concat whole = List.concat halves /\
  yields
    (result (sendMessageStream svc0 (respond whole None) (lit "hi") None))
  = [VString [0xE9%N]] /\
  yields
    (result (sendMessageStream svc0 (respond halves None) (lit "hi") None))
  = [VString [0xFFFD%N; 0xFFFD%N]].
Proof. vm_compute. repeat split. Qed.
(** * Further properties *)

(** ** The store as a whole *)

(** X1. A second [finishStreaming] changes nothing: an end event that
    arrives twice commits nothing more. *)
Theorem X1_finishStreaming_twice :
  forall (k1 k2 : Clock) (s : ChatState),
    finishStreaming k2 (finishStreaming k1 s) = finishStreaming k1 s.
Proof.
  intros k1 k2 s. unfold finishStreaming at 1.
  destruct (finishStreaming_idle k1 s) as [Hi Hb].
  rewrite Hb. cbn [trim trimEnd trimStart rev nonEmpty].
  unfold finishStreaming in *.
  destruct (nonEmpty (trim (streamContent s))); reflexivity.
Qed.

(** X2. What [finishStreaming] adds to the log is at most one message, of
    the assistant, whose text is not empty and has no white space at
    either end. *)
Theorem X2_committed_text_is_trimmed :
  forall (k : Clock) (s : ChatState),
    exists added,
      messages (finishStreaming k s) = messages s ++ added /\
      List.length added <= 1 /\
      Forall
        (fun m =>
           ChatStore.type m = assistant /\
           nonEmpty (ChatStore.content m) = true /\
           trimStart (ChatStore.content m) = ChatStore.content m /\
           trimEnd (ChatStore.content m) = ChatStore.content m)
        added.
Proof.
  intros k s. rewrite finishStreaming_messages.
  destruct (forallb isWhiteSpace (streamContent s)) eqn:E.
  - exists []. rewrite app_nil_r. repeat split; auto.
  - exists [newMessage k (trim (streamContent s)) assistant].
    split; [reflexivity|]. split; [simpl; lia|].
    constructor; [|constructor]. cbn [newMessage ChatStore.type ChatStore.content].
    destruct (trim_stripped (streamContent s)) as [H1 H2].
    repeat split; try assumption.
    rewrite nonEmpty_trim, E. reflexivity.
Qed.

Lemma step_keeps_log (a : Action) (s : ChatState) :
  keepsLog a = true ->
  exists added, messages (step a s) = messages s ++ added.
Proof.
  destruct a; intros H; try discriminate H;
    try (exists []; rewrite app_nil_r; reflexivity).
  - eexists. reflexivity.
  - cbn [step]. rewrite finishStreaming_messages.
    destruct (forallb isWhiteSpace (streamContent s)).
    + exists []. now rewrite app_nil_r.
    + eexists. reflexivity.
Qed.

(** X3. The message log only grows: whatever operations of the store run,
    as long as [clearMessages] is not among them, the log afterwards is
    the log before followed by the messages added, so no message is ever
    changed, reordered or dropped. *)
Theorem X3_log_is_append_only :
  forall (acts : list Action) (s : ChatState),
    forallb keepsLog acts = true ->
    exists added, messages (run acts s) = messages s ++ added.
Proof.
  unfold run. induction acts as [|a acts IH]; intros s H; simpl in *.
  - exists []. now rewrite app_nil_r.
  - apply andb_prop in H as [Ha Hacts].
    destruct (step_keeps_log a s Ha) as (add1 & H1).
    destruct (IH (step a s) Hacts) as (add2 & H2).
    exists (add1 ++ add2). rewrite H2, H1, app_assoc. reflexivity.
Qed.

Lemma X3_log_is_append_only_witness :
  exists added,
    messages
      (run [StartStreaming; AppendStreamContent (lit "Hi"); ClearState;
            AddMessage clock0 (lit "q") user; FinishStreaming clock0]
         (addMessage clock0 (lit "first") user initialState))
    = messages (addMessage clock0 (lit "first") user initialState) ++ added.
Proof.
  apply (X3_log_is_append_only
           [StartStreaming; AppendStreamContent (lit "Hi"); ClearState;
            AddMessage clock0 (lit "q") user; FinishStreaming clock0]
           (addMessage clock0 (lit "first") user initialState)).
  reflexivity.
Defined.

Lemma clearState_feed (cs : list jsstring) (s : ChatState) :
  clearState (feed cs s) = clearState s.
Proof.
  unfold feed. revert s.
  induction cs as [|c cs IH]; intros s; simpl; [reflexivity|].
  rewrite IH. reflexivity.
Qed.

(** X4. Hiding the overlay in the middle of a stream keeps the message log
    but throws away the text received so far; the chunks that still arrive
    are collected unseen, and the end event commits only them: the answer
    in the log is the part received after the overlay was hidden. *)
Theorem X4_hiding_mid_stream_commits_the_tail :
  forall (k : Clock) (before after : list jsstring) (s : ChatState),
    let hidden := clearState (feed before (startStreaming s)) in
    messages hidden = messages s /\
    showsStreamBubble (feed after hidden) = false /\
    messages (finishStreaming k (feed after hidden)) =
      messages s ++
      (if forallb isWhiteSpace (List.concat after) then []
       else [newMessage k (trim (List.concat after)) assistant]).
Proof.
  intros k before after s hidden. subst hidden.
  rewrite clearState_feed.
  split; [reflexivity|]. split.
  - unfold showsStreamBubble. rewrite feed_isStreaming. reflexivity.
  - rewrite finishStreaming_messages, feed_streamContent, feed_messages.
    cbn [clearState startStreaming streamContent messages app].
    destruct (forallb isWhiteSpace (List.concat after));
      [now rewrite app_nil_r | reflexivity].
Qed.

(** ** A submission from the key press to the settled state *)

Lemma deliver_chunks (other : Value -> jsstring) (k1 k2 : Clock)
    (ys : list Value) (s : ChatState) :
  deliver_all other k1 k2 (List.map StreamChunk ys) s
  = feed (List.map (chunkText other) ys) s.
Proof.
  unfold deliver_all, feed. revert s.
  induction ys as [|y ys IH]; intros s; simpl; [reflexivity|].
  apply IH.
Qed.

Lemma deliver_relay (other : Value -> jsstring) (k1 k2 : Clock)
    (svc : LLMService) (http : Request -> Completion ResponseStream)
    (msg : jsstring) (img : option jsstring) (s : ChatState) :
  deliver_all other k1 k2
    (relay (result (sendMessageStream svc http msg img))) s
  = finishStreaming k1
      (feed
         (List.map (chunkText other)
            (yields (result (sendMessageStream svc http msg img)))) s).
Proof.
  unfold relay. rewrite sendMessageStream_never_throws.
  unfold deliver_all. rewrite fold_left_app. cbn [fold_left deliver].
  fold (deliver_all other k1 k2
          (List.map StreamChunk
             (yields (result (sendMessageStream svc http msg img)))) s).
  rewrite deliver_chunks. reflexivity.
Qed.

Lemma begin_accepts (api : bool) (k : Clock) (s : ChatState) :
  isProcessing s = false ->
  nonEmpty (trim (inputValue s)) = true ->
  App_sendMessage_begin true k s
  = Some
      (setPlaceholder defaultPlaceholder
         (setInputValue []
            (addMessage k (trim (inputValue s)) user
               (startStreaming (setLoading true (setProcessing true s))))),
       trim (inputValue s), orUndefined (currentScreenData s)).
Proof.
  intros Hp Hi. unfold App_sendMessage_begin. rewrite Hp, Hi. reflexivity.
Qed.

Lemma feed_state (ys : list jsstring) (st : ChatState) :
  feed ys st =
  {| messages := messages st;
     inputValue := inputValue st;
     placeholder := placeholder st;
     isStreaming := isStreaming st;
     streamContent := streamContent st ++ List.concat ys;
     isLoading := isLoading st;
     isProcessing := isProcessing st;
     currentScreenData := currentScreenData st;
     isScreenCaptured := isScreenCaptured st |}.
Proof.
  unfold feed. revert st.
  induction ys as [|y ys IH]; intros st; simpl.
  - rewrite app_nil_r. destruct st; reflexivity.
  - rewrite IH. simpl. rewrite app_assoc. reflexivity.
Qed.

Lemma finish_feed_state (k : Clock) (ys : list jsstring) (st : ChatState) :
  finishStreaming k (feed ys st) =
  {| messages :=
       messages st ++
       (if forallb isWhiteSpace (streamContent st ++ List.concat ys) then []
        else [newMessage k (trim (streamContent st ++ List.concat ys))
                assistant]);
     inputValue := inputValue st;
     placeholder := placeholder st;
     isStreaming := false;
     streamContent := [];
     isLoading := false;
     isProcessing := false;
     currentScreenData := currentScreenData st;
     isScreenCaptured := isScreenCaptured st |}.
Proof.
  rewrite feed_state. unfold finishStreaming.
  cbn [streamContent]. rewrite nonEmpty_trim.
  destruct (forallb isWhiteSpace (streamContent st ++ List.concat ys));
    cbn [negb addMessage messages inputValue placeholder isStreaming
         streamContent isLoading isProcessing currentScreenData
         isScreenCaptured].
  - now rewrite app_nil_r.
  - reflexivity.
Qed.

Lemma submit_state :
  forall (other : Value -> jsstring) (svc : LLMService)
         (http : Request -> Completion ResponseStream)
         (ku ka kb : Clock) (s : ChatState),
    isProcessing s = false ->
    nonEmpty (trim (inputValue s)) = true ->
    let text :=
      List.concat
        (List.map (chunkText other)
           (yields
              (result
                 (sendMessageStream svc http (trim (inputValue s))
                    (orUndefined (currentScreenData s)))))) in
    submit other svc http ku ka kb s =
    {| messages :=
         messages s ++
         newMessage ku (trim (inputValue s)) user ::
         (if forallb isWhiteSpace text then []
          else [newMessage ka (trim text) assistant]);
       inputValue := [];
       placeholder := defaultPlaceholder;
       isStreaming := false;
       streamContent := [];
       isLoading := false;
       isProcessing := false;
       currentScreenData := None;
       isScreenCaptured := false |}.
Proof.
  intros other svc http ku ka kb s Hp Hi text.
  unfold submit. rewrite (begin_accepts true ku s Hp Hi).
  rewrite deliver_relay, finish_feed_state.
  cbn [App_sendMessage_resolved setScreenCaptured setScreenData setPlaceholder
       setInputValue addMessage startStreaming setLoading setProcessing
       messages inputValue placeholder isStreaming streamContent isLoading
       isProcessing currentScreenData isScreenCaptured app].
  fold text. rewrite <- app_assoc. reflexivity.
Qed.

(** X5. A submission that passes the guard settles, whatever the main
    process answers: the user's trimmed text is logged, then at most one
    assistant message holding the trimmed text of all chunks, and the
    store is back to idle, not loading, not processing, with the input
    emptied and the screenshot detached. *)
Theorem X5_submission_settles :
  forall (other : Value -> jsstring) (svc : LLMService)
         (http : Request -> Completion ResponseStream)
         (ku ka kb : Clock) (s : ChatState),
    isProcessing s = false ->
    nonEmpty (trim (inputValue s)) = true ->
    let text :=
      List.concat
        (List.map (chunkText other)
           (yields
              (result
                 (sendMessageStream svc http (trim (inputValue s))
                    (orUndefined (currentScreenData s)))))) in
    submit other svc http ku ka kb s =
    {| messages :=
         messages s ++
         newMessage ku (trim (inputValue s)) user ::
         (if forallb isWhiteSpace text then []
          else [newMessage ka (trim text) assistant]);
       inputValue := [];
       placeholder := defaultPlaceholder;
       isStreaming := false;
       streamContent := [];
       isLoading := false;
       isProcessing := false;
       currentScreenData := None;
       isScreenCaptured := false |}.
Proof. exact submit_state. Qed.

Lemma X5_submission_settles_witness :
  submit (fun _ => []) svc0
    (respond [Utf8.bytes hello_text] None) clock0 clock0 clock0
    (setInputValue (lit " hi ") initialState)
  = {| messages :=
         [newMessage clock0 (lit "hi") user;
          newMessage clock0 (lit "Hello") assistant];
       inputValue := [];
       placeholder := defaultPlaceholder;
       isStreaming := false;
       streamContent := [];
       isLoading := false;
       isProcessing := false;
       currentScreenData := None;
       isScreenCaptured := false |}.
Proof.
  rewrite (X5_submission_settles (fun _ => []) svc0
             (respond [Utf8.bytes hello_text] None) clock0 clock0 clock0
             (setInputValue (lit " hi ") initialState) eq_refl eq_refl).
  vm_compute. reflexivity.
Defined.

(** X6. The statements that follow the [await] in [sendMessage] commute
    with every stream listener: the settled state is the same whether the
    call resolves before, between or after the events of the stream. *)
Theorem X6_resolution_commutes_with_stream_events :
  forall (other : Value -> jsstring) (k1 k2 : Clock) (ev : IpcEvent)
         (s : ChatState),
    App_sendMessage_resolved (deliver other k1 k2 ev s)
    = deliver other k1 k2 ev (App_sendMessage_resolved s).
Proof.
  intros other k1 k2 ev s.
  destruct ev as [v| |e]; cbn [deliver].
  - reflexivity.
  - unfold handleStreamEnd, finishStreaming, App_sendMessage_resolved.
    cbn [setScreenCaptured setScreenData streamContent].
    destruct (nonEmpty (trim (streamContent s))); reflexivity.
  - unfold handleStreamError, finishStreaming, App_sendMessage_resolved.
    cbn [setScreenCaptured setScreenData addMessage streamContent].
    destruct (nonEmpty (trim (streamContent s))); reflexivity.
Qed.

(** ** The component turn by turn *)

(** Run without anything in between, the two halves of
    [captureAndSendMessage] are the whole function. *)
Lemma capture_undisturbed (api : bool) (k : Clock) (r : CaptureResult)
    (s : ChatState) :
  captureAndSendMessage api k r s =
  match captureAndSendMessage_begin api s with
  | None => s
  | Some s1 => captureAndSendMessage_settled k r s1
  end.
Proof.
  unfold captureAndSendMessage, captureAndSendMessage_begin.
  destruct (isProcessing s || negb api); [reflexivity|].
  destruct r; reflexivity.
Qed.

Lemma uiRun_app (other : Value -> jsstring) (xs ys : list UiEvent)
    (ui : Ui) :
  uiRun other (xs ++ ys) ui = uiRun other ys (uiRun other xs ui).
Proof. unfold uiRun. apply fold_left_app. Qed.

Lemma uiRun_chunks (other : Value -> jsstring) (k1 k2 : Clock)
    (ys : list Value) (ui : Ui) :
  streams ui <> 0%nat ->
  uiRun other (List.map (fun y => FromMain k1 k2 (StreamChunk y)) ys) ui
  = with_store
      (deliver_all other k1 k2 (List.map StreamChunk ys) (store ui)) ui.
Proof.
  unfold uiRun, deliver_all. revert ui.
  induction ys as [|y ys IH]; intros ui Hn.
  - destruct ui. reflexivity.
  - cbn [List.map fold_left uiStep].
    destruct (streams ui) as [|n] eqn:E; [congruence|].
    rewrite IH by (cbn; congruence).
    unfold with_store. cbn. reflexivity.
Qed.

(** Run without anything in between, the turns of a submission leave the
    store that [submit] computes. *)
Lemma submission_undisturbed (other : Value -> jsstring)
    (svc : LLMService) (http : Request -> Completion ResponseStream)
    (ku ka kb : Clock) (ui : Ui) (s1 : ChatState) (msg : jsstring)
    (img : option jsstring) :
  App_sendMessage_begin true ku (store ui) = Some (s1, msg, img) ->
  store
    (uiRun other
       (SubmitKey ku ::
        List.map (fun y => FromMain ka kb (StreamChunk y))
          (yields (result (sendMessageStream svc http msg img))) ++
        [FromMain ka kb StreamEnd; CallResolved])
       ui)
  = submit other svc http ku ka kb (store ui).
Proof.
  intros Hb. unfold submit. rewrite Hb, relay_ends_normally.
  change (SubmitKey ku :: ?l) with ([SubmitKey ku] ++ l).
  rewrite !uiRun_app.
  unfold uiRun at 3. cbn [fold_left uiStep]. rewrite Hb.
  rewrite uiRun_chunks by (cbn; congruence).
  unfold uiRun, with_store. cbn [fold_left uiStep streams replies store].
  unfold deliver_all. rewrite fold_left_app. reflexivity.
Qed.





(** The texts of [getErrorResponse] begin with a letter and end with a
    full stop. *)
Lemma getErrorResponse_shape (svc : LLMService) (e : JSError) :
  exists h mid,
    getErrorResponse svc e = h :: mid ++ [46%N] /\ isWhiteSpace h = false.
Proof.
  unfold getErrorResponse.
  destruct e as [status code|text].
  - destruct (opt_N_eqb status 401).
    { exists 73%N, (removelast (tl (lit "Invalid API key. Please check your OpenAI API key in the environment variables."))).
      split; reflexivity. }
    destruct (opt_N_eqb status 404).
    { exists 77%N,
        (lit "odel " ++ dquote ++ model svc ++ dquote ++
         requote (lit " not found. Try using 'gpt-4o' or 'gpt-4' instead. Update your OPENAI_MODEL in the .env file")).
      split; [|reflexivity].
      generalize (model svc) as m. intros m.
      rewrite <- !app_assoc. vm_compute. reflexivity. }
    destruct (opt_N_eqb status 429).
    { exists 82%N, (removelast (tl (lit "Rate limit exceeded. Please try again in a moment."))).
      split; reflexivity. }
    destruct (opt_N_eqb status 400).
    { exists 66%N, (removelast (tl (lit "Bad request. The image might be too large or in an unsupported format."))).
      split; reflexivity. }
    destruct (opt_str_eqb code (lit "ENOTFOUND") ||
              opt_str_eqb code (lit "ECONNREFUSED")).
    { exists 78%N, (removelast (tl (lit "Network error. Please check your internet connection."))).
      split; reflexivity. }
    exists 65%N, (removelast (tl (lit "An unexpected error occurred. Please try again."))).
    split; reflexivity.
  - exists 65%N, (removelast (tl (lit "An unexpected error occurred. Please try again."))).
    split; reflexivity.
Qed.

Lemma trimStart_app_letter (x r : jsstring) (h : N) :
  isWhiteSpace h = false ->
  trimStart (x ++ h :: r) = trimStart x ++ h :: r.
Proof.
  intros Hh. induction x as [|c x IH]; simpl.
  - now rewrite Hh.
  - destruct (isWhiteSpace c); [exact IH | reflexivity].
Qed.

Lemma trimEnd_letter (y : jsstring) (c : N) :
  isWhiteSpace c = false -> trimEnd (y ++ [c]) = y ++ [c].
Proof.
  intros Hc. unfold trimEnd. rewrite rev_unit. simpl. rewrite Hc.
  simpl. now rewrite rev_involutive.
Qed.

Lemma trim_before_error_text (svc : LLMService) (e : JSError)
    (x : jsstring) :
  trim (x ++ getErrorResponse svc e) = trimStart x ++ getErrorResponse svc e
  /\ forallb isWhiteSpace (x ++ getErrorResponse svc e) = false.
Proof.
  destruct (getErrorResponse_shape svc e) as (h & mid & -> & Hh).
  split.
  - unfold trim. rewrite trimStart_app_letter by assumption.
    change (h :: mid ++ [46%N]) with ((h :: mid) ++ [46%N]).
    rewrite app_assoc. apply trimEnd_letter. reflexivity.
  - rewrite forallb_app. simpl. rewrite Hh. simpl. apply andb_false_r.
Qed.

(** X8. When the transport fails in the middle of a stream, the text for
    the error arrives as one more chunk of the same stream: the log gains,
    after the user's message, exactly one assistant message, in which the
    text for the error follows the partial answer without any
    separator. *)
Theorem X8_stream_failure_is_glued_to_the_partial_answer :
  forall (other : Value -> jsstring) (svc : LLMService)
         (http : Request -> Completion ResponseStream)
         (ku ka kb : Clock) (s : ChatState) (ys : list Value)
         (e : JSError),
    isProcessing s = false ->
    nonEmpty (trim (inputValue s)) = true ->
    nonEmpty (apiKey svc) = true ->
    result
      (callOpenAIStream svc http
         (buildMessages (trim (inputValue s))
            (orUndefined (currentScreenData s))))
      = {| yields := ys; completion := Throw e |} ->
    messages (submit other svc http ku ka kb s) =
      messages s ++
      [newMessage ku (trim (inputValue s)) user;
       newMessage ka
         (trimStart (List.concat (List.map (chunkText other) ys)) ++
          getErrorResponse svc e)
         assistant].
Proof.
  intros other svc http ku ka kb s ys e Hp Hi Hk Hinner.
  rewrite (submit_state other svc http ku ka kb s Hp Hi).
  cbn [messages].
  rewrite sendMessageStream_configured by assumption.
  cbn [result]. rewrite Hinner. cbn [yields completion].
  rewrite map_app, concat_app. cbn [List.map List.concat chunkText].
  rewrite app_nil_r.
  destruct (trim_before_error_text svc e
              (List.concat (List.map (chunkText other) ys))) as [Ht Hw].
  rewrite Hw, Ht. reflexivity.
Qed.

Lemma X8_stream_failure_is_glued_to_the_partial_answer_witness :
  messages
    (submit (fun _ => []) svc0
       (respond [Utf8.bytes (frame_Hel ++ [10; 10]%N)]
          (Some connectionReset))
       clock0 clock0 clock0 (setInputValue (lit "hi") initialState))
  = [newMessage clock0 (lit "hi") user;
     newMessage clock0
       (lit "HelAn unexpected error occurred. Please try again.")
       assistant].
Proof.
  apply (X8_stream_failure_is_glued_to_the_partial_answer (fun _ => [])
           svc0
           (respond [Utf8.bytes (frame_Hel ++ [10; 10]%N)]
              (Some connectionReset))
           clock0 clock0 clock0 (setInputValue (lit "hi") initialState)
           [VString (lit "Hel")] connectionReset);
    reflexivity.
Defined.

(** ** The screenshot and its indicator *)

Lemma uiStep_litWithCause (other : Value -> jsstring) (ev : UiEvent)
    (ui : Ui) :
  litWithCause ui = true -> litWithCause (uiStep other ev ui) = true.
Proof.
  unfold litWithCause. intros H.
  destruct ev as [d|v| |k r|k|k1 k2 ev| |k1 k2|]; cbn [uiStep].
  - cbn [with_store store captures]. unfold handleScreenCapture.
    destruct (hasScreen d) eqn:E; cbn; [now rewrite E | reflexivity].
  - exact H.
  - unfold captureAndSendMessage_begin.
    destruct (isProcessing (store ui) || negb true); [exact H|].
    cbn. now rewrite orb_true_r.
  - destruct (captures ui) as [|n] eqn:E0; [now rewrite E0|].
    destruct r as [d|]; cbn [captureAndSendMessage_settled store];
      [destruct (hasScreen d) eqn:E|]; cbn;
      [rewrite E; apply Bool.implb_true_r| |]; reflexivity.
  - unfold App_sendMessage_begin.
    destruct (isProcessing (store ui)
              || negb (nonEmpty (trim (inputValue (store ui))))
              || negb true); exact H.
  - destruct (streams ui); [exact H|].
    destruct ev as [v| |e]; cbn [deliver with_store store captures].
    + exact H.
    + unfold handleStreamEnd, finishStreaming.
      destruct (nonEmpty (trim (streamContent (store ui)))); exact H.
    + unfold handleStreamError, finishStreaming.
      cbn [addMessage streamContent].
      destruct (nonEmpty (trim (streamContent (store ui)))); exact H.
  - destruct (replies ui); [exact H | reflexivity].
  - destruct (streams ui); [exact H|]. cbn [store captures].
    unfold App_sendMessage_rejected, finishStreaming.
    cbn [addMessage streamContent].
    destruct (nonEmpty (trim (streamContent (store ui)))); exact H.
  - reflexivity.
Qed.

(** X9. The indicator is never lit without cause: whenever
    [isScreenCaptured] is true, a screenshot is attached or a capture is
    still pending, through every turn of the component in any order. The
    converse does not hold: when the overlay is hidden while a capture is
    pending, the screenshot that the capture returns is attached with the
    indicator off. *)
Theorem X9_indicator_is_lit_only_with_cause :
  forall (other : Value -> jsstring) (evs : list UiEvent) (ui : Ui),
    litWithCause ui = true ->
    litWithCause (uiRun other evs ui) = true /\
    forall (k : Clock) (d : option jsstring),
      isProcessing (store (uiRun other evs ui)) = false ->
      hasScreen d = true ->
      let after :=
        uiRun other
          [CaptureKey; OverlayWasHidden; CaptureReturned k (Captured d)]
          (uiRun other evs ui) in
      currentScreenData (store after) = d /\
      isScreenCaptured (store after) = false /\
      indicatorAgrees (store after) = false /\
      captures after = captures (uiRun other evs ui).
Proof.
  intros other evs ui H. split.
  - unfold uiRun. revert ui H.
    induction evs as [|ev evs IH]; intros ui H; cbn [fold_left].
    + exact H.
    + apply IH. now apply uiStep_litWithCause.
  - intros k d Hp Hd after. subst after.
    generalize dependent (uiRun other evs ui). intros u Hp.
    unfold uiRun. cbn [fold_left]. cbn [uiStep].
    unfold captureAndSendMessage_begin. rewrite Hp.
    cbn [orb negb with_store store captures captureAndSendMessage_settled].
    rewrite Hd. unfold indicatorAgrees. cbn. rewrite Hd. repeat split.
Qed.

Lemma X9_indicator_is_lit_only_with_cause_witness :
  litWithCause
    (uiRun (fun _ => [])
       [ScreenPushed (Some (lit "data:image/png;base64,AAAA"));
        CaptureKey;
        OverlayWasHidden;
        CaptureReturned clock0
          (Captured (Some (lit "data:image/png;base64,BBBB")));
        CaptureKey;
        CaptureReturned clock0 CaptureRejected]
       ui0) = true.
Proof.
  apply (X9_indicator_is_lit_only_with_cause (fun _ => [])
           [ScreenPushed (Some (lit "data:image/png;base64,AAAA"));
            CaptureKey;
            OverlayWasHidden;
            CaptureReturned clock0
              (Captured (Some (lit "data:image/png;base64,BBBB")));
            CaptureKey;
            CaptureReturned clock0 CaptureRejected]
           ui0).
  reflexivity.
Defined.

(** X10. If the capture is rejected while an earlier screenshot is still
    attached, the indicator goes off and an error message is logged, but
    the earlier screenshot stays attached: the next submission sends
    it. *)
Theorem X10_rejected_capture_keeps_the_old_screenshot :
  forall (k k2 : Clock) (s : ChatState),
    isProcessing s = false ->
    nonEmpty (trim (inputValue s)) = true ->
    let s' := captureAndSendMessage true k CaptureRejected s in
    isScreenCaptured s' = false /\
    currentScreenData s' = currentScreenData s /\
    messages s' =
      messages s ++ [newMessage k (lit "Error capturing screen.") assistant]
    /\
    exists s2,
      App_sendMessage_begin true k2 s'
      = Some (s2, trim (inputValue s), orUndefined (currentScreenData s)).
Proof.
  intros k k2 s Hp Hi s'. subst s'.
  unfold captureAndSendMessage. rewrite Hp. cbn [orb negb].
  repeat split.
  eexists. unfold App_sendMessage_begin.
  cbn [setScreenCaptured addMessage isProcessing inputValue
       currentScreenData].
  rewrite Hp, Hi. reflexivity.
Qed.

Lemma X10_rejected_capture_keeps_the_old_screenshot_witness :
  currentScreenData
    (captureAndSendMessage true clock0 CaptureRejected
       (handleScreenCapture (Some (lit "data:image/png;base64,AAAA"))
          (setInputValue (lit "what is this") initialState)))
  = Some (lit "data:image/png;base64,AAAA").
Proof.
  apply (X10_rejected_capture_keeps_the_old_screenshot clock0 clock0
           (handleScreenCapture (Some (lit "data:image/png;base64,AAAA"))
              (setInputValue (lit "what is this") initialState)));
    reflexivity.
Defined.

(** ** Frames and lines *)

Lemma parse_string_body_plain (c rest acc : jsstring) :
  forallb plainChar c = true ->
  parse_string_body (c ++ 34%N :: rest) acc = Some (rev acc ++ c, rest).
Proof.
  revert acc. induction c as [|x c IH]; intros acc H.
  - simpl. now rewrite app_nil_r.
  - simpl in H. apply andb_prop in H as [Hx Hc].
    unfold plainChar in Hx.
    apply andb_prop in Hx as [Hx H92]. apply andb_prop in Hx as [H32 H34].
    apply negb_true_iff in H34. apply negb_true_iff in H92.
    cbn [app parse_string_body]. rewrite H34, H92.
    assert (Hlt : (x <? 32)%N = false).
    { apply N.ltb_ge. now apply N.leb_le. }
    rewrite Hlt, IH by assumption.
    simpl. now rewrite <- app_assoc.
Qed.

Lemma skip_ws_head (c : N) (r : jsstring) :
  isJsonWs c = false -> skip_ws (c :: r) = c :: r.
Proof. intros H. simpl. now rewrite H. Qed.

Ltac parse_step :=
  repeat (rewrite skip_ws_head by reflexivity);
  cbn [N.eqb Pos.eqb].

Lemma parse_string_value (f : nat) (c rest : jsstring) :
  forallb plainChar c = true ->
  parse_value (S f) (34%N :: c ++ 34%N :: rest) = POk (VString c) rest.
Proof.
  intros Hc. cbn [parse_value]. parse_step.
  rewrite parse_string_body_plain by assumption. reflexivity.
Qed.

Lemma parse_object1 (f : nat) (key body rest : jsstring) (v : Value) :
  forallb plainChar key = true ->
  parse_value f body = POk v (125%N :: rest) ->
  parse_value (S (S f)) (123%N :: 34%N :: key ++ 34%N :: 58%N :: body)
  = POk (VObject [(key, v)]) rest.
Proof.
  intros Hk Hb.
  cbn [parse_value parse_members]. parse_step.
  rewrite parse_string_body_plain by assumption.
  parse_step. rewrite Hb. parse_step. reflexivity.
Qed.

Lemma parse_array1 (f : nat) (body rest : jsstring) (v : Value) :
  parse_value f (123%N :: body) = POk v (93%N :: rest) ->
  parse_value (S (S f)) (91%N :: 123%N :: body) = POk (VArray [v]) rest.
Proof.
  intros Hb.
  cbn [parse_value parse_elements]. parse_step.
  rewrite Hb. parse_step. reflexivity.
Qed.

Lemma JSON_parse_delta (c : jsstring) :
  forallb plainChar c = true ->
  JSON_parse
    (requote (lit "{'choices':[{'delta':{'content':'") ++ c ++
     requote (lit "'}}]}"))
  = Some
      (VObject
         [(lit "choices",
           VArray
             [VObject
                [(lit "delta", VObject [(lit "content", VString c)])]])]).
Proof.
  intros Hc. unfold JSON_parse.
  set (s := requote (lit "{'choices':[{'delta':{'content':'") ++ c ++
            requote (lit "'}}]}")).
  assert (Hf : exists n, enough s = 9 + n).
  { exists (enough s - 9). unfold enough, s. rewrite length_app.
    change (List.length (requote (lit "{'choices':[{'delta':{'content':'")))
      with 33.
    lia. }
  destruct Hf as [n Hn]. rewrite Hn. subst s.
  change (requote (lit "{'choices':[{'delta':{'content':'") ++ c ++
          requote (lit "'}}]}"))
    with (123%N :: 34%N :: lit "choices" ++ 34%N :: 58%N ::
          91%N :: 123%N :: 34%N :: lit "delta" ++ 34%N :: 58%N ::
          123%N :: 34%N :: lit "content" ++ 34%N :: 58%N ::
          34%N :: c ++ 34%N :: [125; 125; 93; 125]%N).
  change (9 + n) with (S (S (S (S (S (S (S (S (S n))))))))).
  rewrite (parse_object1 _ (lit "choices") _ []
             (VArray
                [VObject
                   [(lit "delta", VObject [(lit "content", VString c)])]])).
  - reflexivity.
  - reflexivity.
  - apply parse_array1.
    apply (parse_object1 _ (lit "delta")); [reflexivity|].
    apply (parse_object1 _ (lit "content")); [reflexivity|].
    now apply parse_string_value.
Qed.

(** A line that carries a delta of plain characters is read back as that
    delta, and dropped when the delta is empty. *)
Lemma process_line_deltaFrame (c : jsstring) :
  forallb plainChar c = true ->
  process_line (deltaFrame c) =
  if nonEmpty c then Yield (VString c) else Skip.
Proof.
  intros Hc. unfold deltaFrame.
  change (requote (lit "data: {'choices':[{'delta':{'content':'") ++ c ++
          requote (lit "'}}]}"))
    with (lit "data: " ++
          (requote (lit "{'choices':[{'delta':{'content':'") ++ c ++
           requote (lit "'}}]}"))).
  rewrite process_line_data.
  change (str_eqb
            (requote (lit "{'choices':[{'delta':{'content':'") ++ c ++
             requote (lit "'}}]}")) (lit "[DONE]")) with false.
  cbv iota. rewrite JSON_parse_delta by assumption.
  reflexivity.
Qed.

Lemma cut_line (l rest : jsstring) :
  forallb notLineFeed l = true ->
  cut (l ++ 10%N :: rest) = (l :: fst (cut rest), snd (cut rest)).
Proof.
  induction l as [|c l IH]; intros H.
  - simpl. now destruct (cut rest).
  - simpl in H. apply andb_prop in H as [Hc Hl].
    unfold notLineFeed in Hc. apply negb_true_iff in Hc.
    cbn [app cut]. rewrite IH by assumption. rewrite Hc. reflexivity.
Qed.

Lemma cut_lines (ls : list jsstring) :
  forallb (forallb notLineFeed) ls = true ->
  cut (List.concat (List.map (fun l => l ++ [10%N]) ls)) = (ls, []).
Proof.
  induction ls as [|l ls IH]; intros H; [reflexivity|].
  simpl in H. apply andb_prop in H as [Hl Hls].
  cbn [List.map List.concat]. rewrite <- app_assoc. cbn [app].
  rewrite cut_line by assumption. rewrite IH by assumption. reflexivity.
Qed.

Lemma plain_no_line_feed (c : jsstring) :
  forallb plainChar c = true -> forallb notLineFeed c = true.
Proof.
  induction c as [|x c IH]; intros H; [reflexivity|].
  simpl in *. apply andb_prop in H as [Hx Hc].
  rewrite IH by assumption. rewrite andb_true_r.
  unfold plainChar in Hx. apply andb_prop in Hx as [Hx _].
  apply andb_prop in Hx as [Hx _]. apply N.leb_le in Hx.
  unfold notLineFeed. apply negb_true_iff. apply N.eqb_neq. lia.
Qed.

Lemma deltaFrame_no_line_feed (c : jsstring) :
  forallb plainChar c = true -> forallb notLineFeed (deltaFrame c) = true.
Proof.
  intros H. unfold deltaFrame. rewrite !forallb_app.
  rewrite (plain_no_line_feed c H). reflexivity.
Qed.

Lemma process_deltaFrames (texts : list jsstring) (after : list jsstring) :
  forallb (forallb plainChar) texts = true ->
  process_lines (List.map deltaFrame texts ++ after) =
  (List.map VString (filter nonEmpty texts) ++ fst (process_lines after),
   snd (process_lines after)).
Proof.
  induction texts as [|c texts IH]; intros H.
  - simpl. now destruct (process_lines after).
  - simpl in H. apply andb_prop in H as [Hc Hts].
    cbn [List.map app process_lines filter].
    rewrite process_line_deltaFrame by assumption.
    rewrite IH by assumption.
    destruct (nonEmpty c); reflexivity.
Qed.

(** X11. A stream of well-formed frames is surfaced exactly: when the
    decoded response consists of one line per text delta, each delta made
    of characters that need no escape, followed by the sentinel line, the
    generator yields the non-empty deltas in order, nothing else, and ends
    normally, however the response was cut into chunks and even if the
    transport fails afterwards. *)
Theorem X11_well_formed_stream_is_surfaced_exactly :
  forall (texts : list jsstring) (cs : list (list byte))
         (fail : option JSError),
    forallb (forallb plainChar) texts = true ->
    List.concat (List.map Utf8.toString cs) =
      List.concat
        (List.map (fun l => l ++ [10%N])
           (List.map deltaFrame texts ++ [frame_DONE])) ->
    stream_loop [] cs fail =
      {| yields := List.map VString (filter nonEmpty texts);
         completion := Return tt |}.
Proof.
  intros texts cs fail Hp Hcs.
  rewrite stream_loop_parse_text by reflexivity.
  unfold parse_text. cbn [app]. rewrite Hcs, cut_lines.
  - cbn [fst]. rewrite process_deltaFrames by assumption.
    cbn [process_lines fst snd].
    change (process_line frame_DONE) with Done. cbn [fst snd].
    rewrite app_nil_r. reflexivity.
  - rewrite forallb_app.
    replace (forallb (forallb notLineFeed) [frame_DONE]) with true
      by reflexivity.
    rewrite andb_true_r. clear Hcs. induction texts as [|c texts IH]; [reflexivity|].
    simpl in Hp. apply andb_prop in Hp as [Hc Hts].
    cbn [List.map forallb].
    rewrite deltaFrame_no_line_feed by assumption. now apply IH.
Qed.

Lemma X11_well_formed_stream_is_surfaced_exactly_witness :
  stream_loop []
    [Utf8.bytes (deltaFrame (lit "Hel"));
     Utf8.bytes ([10%N] ++ deltaFrame [] ++ [10%N] ++ deltaFrame (lit "lo, ")
                 ++ [10%N] ++ deltaFrame (lit "world") ++ [10%N]);
     Utf8.bytes (frame_DONE ++ [10%N])]
    (Some connectionReset)
  = {| yields :=
         [VString (lit "Hel"); VString (lit "lo, "); VString (lit "world")];
       completion := Return tt |}.
Proof.
  apply (X11_well_formed_stream_is_surfaced_exactly
           [lit "Hel"; []; lit "lo, "; lit "world"]); reflexivity.
Defined.

Lemma cut_no_line_feed (x : jsstring) :
  forallb notLineFeed x = true <-> fst (cut x) = [].
Proof.
  induction x as [|c x IH]; simpl; [tauto|].
  destruct (cut x) as [ls last]. simpl in IH.
  unfold notLineFeed at 1.
  destruct (c =? 10)%N; simpl.
  - split; discriminate.
  - destruct ls as [|l ls']; simpl.
    + tauto.
    + split; [|discriminate]. intros H. apply IH in H. discriminate.
Qed.

(** X12. A last line that no line feed ends is never read: a final chunk
    without a line feed changes neither what the generator yields nor how
    it ends. *)
Theorem X12_unfinished_last_line_is_dropped :
  forall (cs : list (list byte)) (tail : list byte)
         (fail : option JSError),
    forallb notLineFeed (Utf8.toString tail) = true ->
    stream_loop [] (cs ++ [tail]) fail = stream_loop [] cs fail.
Proof.
  intros cs tail fail Ht.
  rewrite !stream_loop_parse_text by reflexivity.
  unfold parse_text. cbn [app].
  rewrite map_app, concat_app. cbn [List.map List.concat].
  rewrite app_nil_r, cut_app. cbn [fst].
  set (text := List.concat (List.map Utf8.toString cs)).
  assert (Hno : fst (cut (snd (cut text) ++ Utf8.toString tail)) = []).
  { apply cut_no_line_feed. rewrite forallb_app, Ht, andb_true_r.
    apply cut_no_line_feed. apply cut_rest_no_line. }
  rewrite Hno, app_nil_r. reflexivity.
Qed.

Lemma X12_unfinished_last_line_is_dropped_witness :
  stream_loop []
    ([Utf8.bytes (deltaFrame (lit "Hel") ++ [10%N])] ++
     [Utf8.bytes (deltaFrame (lit "lo"))]) None
  = stream_loop [] [Utf8.bytes (deltaFrame (lit "Hel") ++ [10%N])] None.
Proof.
  apply (X12_unfinished_last_line_is_dropped
           [Utf8.bytes (deltaFrame (lit "Hel") ++ [10%N])]
           (Utf8.bytes (deltaFrame (lit "lo"))) None).
  reflexivity.
Defined.

(** X13. Once the sentinel line has been read, a failure of the transport
    is not reported: the generator has returned and yields no text for the
    error. *)
Theorem X13_failure_after_the_sentinel_is_not_reported :
  forall (cs : list (list byte)) (e : JSError),
    snd (process_lines
           (fst (cut (List.concat (List.map Utf8.toString cs))))) = true ->
    stream_loop [] cs (Some e) = stream_loop [] cs None /\
    completion (stream_loop [] cs (Some e)) = Return tt.
Proof.
  intros cs e H.
  rewrite !stream_loop_parse_text by reflexivity.
  unfold parse_text. cbn [app].
  destruct (process_lines
              (fst (cut (List.concat (List.map Utf8.toString cs)))))
    as [ys fin].
  simpl in H. subst fin. split; reflexivity.
Qed.

Lemma X13_failure_after_the_sentinel_is_not_reported_witness :
  completion
    (stream_loop []
       [Utf8.bytes (deltaFrame (lit "Hel") ++ [10%N] ++ frame_DONE);
        Utf8.bytes [10%N]; Utf8.bytes (lit "never read")]
       (Some connectionReset))
  = Return tt.
Proof.
  apply (X13_failure_after_the_sentinel_is_not_reported
           [Utf8.bytes (deltaFrame (lit "Hel") ++ [10%N] ++ frame_DONE);
            Utf8.bytes [10%N]; Utf8.bytes (lit "never read")]
           connectionReset).
  reflexivity.
Defined.

(** X14. Reading the response chunk by chunk gives what one pass over its
    whole decoded text gives: the deltas of its complete lines up to the
    sentinel, and the failure of the transport only if no sentinel was
    read. *)
Theorem X14_chunked_reading_is_one_pass_over_the_text :
  forall (cs : list (list byte)) (fail : option JSError),
    stream_loop [] cs fail =
    {| yields :=
         fst (process_lines
                (fst (cut (List.concat (List.map Utf8.toString cs)))));
       completion :=
         if snd (process_lines
                   (fst (cut (List.concat (List.map Utf8.toString cs)))))
         then Return tt
         else match fail with
              | Some e => Throw e
              | None => Return tt
              end |}.
Proof.
  intros cs fail.
  rewrite stream_loop_parse_text by reflexivity.
  unfold parse_text. cbn [app].
  destruct (process_lines
              (fst (cut (List.concat (List.map Utf8.toString cs)))));
    reflexivity.
Qed.

(** X15. For a response made of ASCII bytes only, what the streamed call
    yields does not depend on where the transport cuts the bytes into
    chunks. *)
Theorem X15_ascii_response_may_be_cut_anywhere :
  forall (svc : LLMService) (msg : jsstring) (img : option jsstring)
         (cs1 cs2 : list (list byte)) (fail : option JSError),
    List.concat cs1 = List.concat cs2 ->
    forallb Utf8.isAscii (List.concat cs1) = true ->
    result (sendMessageStream svc (respond cs1 fail) msg img)
    = result (sendMessageStream svc (respond cs2 fail) msg img).
Proof.
  intros svc msg img cs1 cs2 fail Heq Hascii.
  unfold sendMessageStream.
  destruct (negb (nonEmpty (apiKey svc))); [reflexivity|].
  cbn [callOpenAIStream respond result requests chunks failure].
  rewrite (stream_loop_ascii_invariant cs1 cs2 fail Heq Hascii).
  reflexivity.
Qed.

Lemma X15_ascii_response_may_be_cut_anywhere_witness :
  result
    (sendMessageStream svc0
       (respond [Utf8.bytes (lit "data: {"); Utf8.bytes (lit "}"); [x0a]]
          None) (lit "hi") None)
  = result
      (sendMessageStream svc0
         (respond [Utf8.bytes (lit "data: {}") ++ [x0a]] None)
         (lit "hi") None).
Proof.
  apply (X15_ascii_response_may_be_cut_anywhere svc0 (lit "hi") None
           [Utf8.bytes (lit "data: {"); Utf8.bytes (lit "}"); [x0a]]
           [Utf8.bytes (lit "data: {}") ++ [x0a]] None);
    reflexivity.
Defined.

(** ** Answers *)

Lemma stream_loop_truthy (cs : list (list byte)) (fail : option JSError) :
  forall buffer,
    Forall (fun v => truthy v = true) (yields (stream_loop buffer cs fail)).
Proof.
  induction cs as [|chunk rest IH]; intros buffer; cbn [stream_loop].
  - constructor.
  - destruct (pop (split_lf (buffer ++ Utf8.toString chunk)))
      as [popped lines].
    pose proof (process_lines_truthy lines) as Hl.
    destruct (process_lines lines) as [ys fin]. cbn [fst] in Hl.
    destruct fin; cbn [yields]; [exact Hl|].
    apply Forall_app. split; [exact Hl | apply IH].
Qed.

Lemma getMockResponse_nonEmpty (msg : jsstring) (b : bool) :
  nonEmpty (getMockResponse msg b) = true.
Proof. reflexivity. Qed.

Lemma getErrorResponse_nonEmpty (svc : LLMService) (e : JSError) :
  nonEmpty (getErrorResponse svc e) = true.
Proof.
  destruct (getErrorResponse_shape svc e) as (h & mid & -> & _).
  reflexivity.
Qed.

(** X16. No answer is empty: the blocking call always returns a truthy
    value, and the streamed call sends the renderer chunk events that all
    carry truthy values, followed by the end event and never by the error
    event. *)
Theorem X16_no_answer_is_empty :
  forall (svc : LLMService) (http1 : Request -> Completion Value)
         (http2 : Request -> Completion ResponseStream)
         (msg : jsstring) (img : option jsstring),
    (exists v,
       result (sendMessage svc http1 msg img) = Return v /\
       truthy v = true) /\
    (exists ys,
       relay (result (sendMessageStream svc http2 msg img))
       = List.map StreamChunk ys ++ [StreamEnd] /\
       Forall (fun v => truthy v = true) ys).
Proof.
  intros svc http1 http2 msg img. split.
  - unfold sendMessage.
    destruct (negb (nonEmpty (apiKey svc))).
    { eexists. split; [reflexivity|]. apply getMockResponse_nonEmpty. }
    cbn [result].
    destruct (http1 (callOpenAI_request svc (buildMessages msg img)))
      as [response|e].
    + destruct (messageContent response) as [text|].
      * destruct (truthy text) eqn:T.
        -- exists text. split; [reflexivity | exact T].
        -- eexists. split; reflexivity.
      * eexists. split; [reflexivity|]. apply getErrorResponse_nonEmpty.
    + eexists. split; [reflexivity|]. apply getErrorResponse_nonEmpty.
  - exists (yields (result (sendMessageStream svc http2 msg img))).
    split.
    + unfold relay. now rewrite sendMessageStream_never_throws.
    + unfold sendMessageStream.
      destruct (negb (nonEmpty (apiKey svc))).
      { cbn [result yields]. constructor; [|constructor].
        apply getMockResponse_nonEmpty. }
      cbn [result callOpenAIStream].
      assert (Hin :
                Forall (fun v => truthy v = true)
                  (yields
                     match
                       http2 (callOpenAIStream_request svc
                                (buildMessages msg img))
                     with
                     | Return body =>
                         stream_loop [] (chunks body) (failure body)
                     | Throw e => {| yields := []; completion := Throw e |}
                     end)).
      { destruct (http2 _) as [body|e]; [apply stream_loop_truthy|].
        constructor. }
      destruct (completion _); cbn [yields]; [exact Hin|].
      apply Forall_app. split; [exact Hin|].
      constructor; [|constructor]. apply getErrorResponse_nonEmpty.
Qed.

(** X17. The errors that have no text of their own: a rejected call whose
    status is none of 401, 404, 429 and 400 is answered with the network
    text when its code is [ENOTFOUND] or [ECONNREFUSED] and with the
    general text otherwise, and anything thrown that is not an error of
    the HTTP client with the general text; the streamed call yields the
    same text as its only chunk. *)
Theorem X17_errors_without_a_status_text :
  forall (svc : LLMService) (msg : jsstring) (img : option jsstring)
         (status : option N) (code : option jsstring) (text : jsstring),
    nonEmpty (apiKey svc) = true ->
    guidanceStatus status = false ->
    let fallback :=
      if networkCode code
      then lit "Network error. Please check your internet connection."
      else lit "An unexpected error occurred. Please try again." in
    result
      (sendMessage svc (fun _ => Throw (AxiosError status code)) msg img)
      = Return (VString fallback) /\
    result
      (sendMessageStream svc (fun _ => Throw (AxiosError status code))
         msg img)
      = {| yields := [VString fallback]; completion := Return tt |} /\
    result (sendMessage svc (fun _ => Throw (OtherError text)) msg img)
      = Return
          (VString (lit "An unexpected error occurred. Please try again."))
    /\
    result
      (sendMessageStream svc (fun _ => Throw (OtherError text)) msg img)
      = {| yields :=
             [VString
                (lit "An unexpected error occurred. Please try again.")];
           completion := Return tt |}.
Proof.
  intros svc msg img status code text Hk Hs fallback.
  assert (Hf : getErrorResponse svc (AxiosError status code) = fallback).
  { unfold guidanceStatus in Hs.
    apply orb_false_elim in Hs as [Hs H400].
    apply orb_false_elim in Hs as [Hs H429].
    apply orb_false_elim in Hs as [H401 H404].
    unfold getErrorResponse. rewrite H401, H404, H429, H400.
    reflexivity. }
  split; [|split; [|split]].
  - erewrite sendMessage_rejected; [|exact Hk|reflexivity].
    now rewrite Hf.
  - rewrite sendMessageStream_configured by assumption.
    cbn [callOpenAIStream result yields completion app]. now rewrite Hf.
  - erewrite sendMessage_rejected; [|exact Hk|reflexivity]. reflexivity.
  - rewrite sendMessageStream_configured by assumption. reflexivity.
Qed.

Lemma X17_errors_without_a_status_text_witness :
  result
    (sendMessage svc0
       (fun _ => Throw (AxiosError (Some 503%N) (Some (lit "ECONNREFUSED"))))
       (lit "hi") None)
  = Return
      (VString (lit "Network error. Please check your internet connection.")).
Proof.
  apply (X17_errors_without_a_status_text svc0 (lit "hi") None
           (Some 503%N) (Some (lit "ECONNREFUSED")) []);
    reflexivity.
Defined.

(** X18. A well-formed completion is returned as it is: when the first
    element of [choices] has a [message] whose [content] is a non-empty
    string, the blocking call returns that string unchanged, whatever
    other properties and further choices the response has. *)
Theorem X18_first_choice_is_returned :
  forall (svc : LLMService) (msg : jsstring) (img : option jsstring)
         (props fprops mprops : list (jsstring * Value))
         (more : list Value) (c : jsstring),
    nonEmpty (apiKey svc) = true ->
    getOwn (lit "choices") props = VArray (VObject fprops :: more) ->
    getOwn (lit "message") fprops = VObject mprops ->
    getOwn (lit "content") mprops = VString c ->
    nonEmpty c = true ->
    result (sendMessage svc (fun _ => Return (VObject props)) msg img)
    = Return (VString c).
Proof.
  intros svc msg img props fprops mprops more c Hk Hc Hm Hcont Hne.
  unfold sendMessage. rewrite Hk. cbn [negb result].
  unfold messageContent. cbn [getProp propKey]. rewrite Hc.
  cbn [getIndex0 optProp getProp propKey]. rewrite Hm.
  cbn [optProp getProp propKey]. rewrite Hcont. cbn [truthy]. rewrite Hne.
  reflexivity.
Qed.

Lemma X18_first_choice_is_returned_witness :
  result
    (sendMessage svc0
       (fun _ =>
          Return
            (VObject
               [(lit "id", VString (lit "chatcmpl-1"));
                (lit "choices",
                 VArray
                   [VObject
                      [(lit "index", VNumber (int_number 0));
                       (lit "message",
                        VObject
                          [(lit "role", VString (lit "assistant"));
                           (lit "content", VString (lit " Hi! "))])]])]))
       (lit "hi") None)
  = Return (VString (lit " Hi! ")).
Proof.
  eapply (X18_first_choice_is_returned svc0 (lit "hi") None);
    reflexivity.
Defined.

(** X19. A completion without an answer: when [choices] is an empty array
    the blocking call apologises that it could not generate a response;
    when the response is [null] or an object without [choices], reading
    the first choice throws and the call returns the general error
    text. *)
Theorem X19_completion_without_an_answer :
  forall (svc : LLMService) (msg : jsstring) (img : option jsstring)
         (props props' : list (jsstring * Value)),
    nonEmpty (apiKey svc) = true ->
    getOwn (lit "choices") props = VArray [] ->
    getOwn (lit "choices") props' = VUndefined ->
    result (sendMessage svc (fun _ => Return (VObject props)) msg img)
      = Return (VString (lit "Sorry, I could not generate a response.")) /\
    result (sendMessage svc (fun _ => Return (VObject props')) msg img)
      = Return
          (VString (lit "An unexpected error occurred. Please try again."))
    /\
    result (sendMessage svc (fun _ => Return VNull) msg img)
      = Return
          (VString (lit "An unexpected error occurred. Please try again.")).
Proof.
  intros svc msg img props props' Hk He Hu.
  unfold sendMessage. rewrite Hk. cbn [negb result].
  unfold messageContent. cbn [getProp propKey]. rewrite He, Hu.
  repeat split.
Qed.

Lemma X19_completion_without_an_answer_witness :
  result
    (sendMessage svc0
       (fun _ => Return (VObject [(lit "choices", VArray [])]))
       (lit "hi") None)
  = Return (VString (lit "Sorry, I could not generate a response.")).
Proof.
  apply (X19_completion_without_an_answer svc0 (lit "hi") None
           [(lit "choices", VArray [])]
           [(lit "error", VString (lit "overloaded"))]);
    reflexivity.
Defined.

(** ** Carriage returns *)

Lemma JSON_parse_delta_cr (c : jsstring) :
  forallb plainChar c = true ->
  JSON_parse
    (requote (lit "{'choices':[{'delta':{'content':'") ++ c ++
     requote (lit "'}}]}") ++ [13%N])
  = Some
      (VObject
         [(lit "choices",
           VArray
             [VObject
                [(lit "delta", VObject [(lit "content", VString c)])]])]).
Proof.
  intros Hc. unfold JSON_parse.
  set (s := requote (lit "{'choices':[{'delta':{'content':'") ++ c ++
            requote (lit "'}}]}") ++ [13%N]).
  assert (Hf : exists n, enough s = 9 + n).
  { exists (enough s - 9). unfold enough, s. rewrite length_app.
    change (List.length (requote (lit "{'choices':[{'delta':{'content':'")))
      with 33.
    lia. }
  destruct Hf as [n Hn]. rewrite Hn. subst s.
  change (requote (lit "{'choices':[{'delta':{'content':'") ++ c ++
          requote (lit "'}}]}") ++ [13%N])
    with (123%N :: 34%N :: lit "choices" ++ 34%N :: 58%N ::
          91%N :: 123%N :: 34%N :: lit "delta" ++ 34%N :: 58%N ::
          123%N :: 34%N :: lit "content" ++ 34%N :: 58%N ::
          34%N :: c ++ 34%N :: [125; 125; 93; 125; 13]%N).
  change (9 + n) with (S (S (S (S (S (S (S (S (S n))))))))).
  rewrite (parse_object1 _ (lit "choices") _ [13%N]
             (VArray
                [VObject
                   [(lit "delta", VObject [(lit "content", VString c)])]])).
  - reflexivity.
  - reflexivity.
  - apply parse_array1.
    apply (parse_object1 _ (lit "delta")); [reflexivity|].
    apply (parse_object1 _ (lit "content")); [reflexivity|].
    now apply parse_string_value.
Qed.

Lemma process_line_deltaFrame_cr (c : jsstring) :
  forallb plainChar c = true ->
  process_line (deltaFrame c ++ [13%N]) =
  if nonEmpty c then Yield (VString c) else Skip.
Proof.
  intros Hc. unfold deltaFrame.
  change ((requote (lit "data: {'choices':[{'delta':{'content':'") ++ c ++
           requote (lit "'}}]}")) ++ [13%N])
    with (lit "data: " ++
          ((requote (lit "{'choices':[{'delta':{'content':'") ++ c ++
            requote (lit "'}}]}")) ++ [13%N])).
  rewrite process_line_data.
  change (str_eqb
            ((requote (lit "{'choices':[{'delta':{'content':'") ++ c ++
              requote (lit "'}}]}")) ++ [13%N]) (lit "[DONE]")) with false.
  cbv iota. rewrite <- !app_assoc.
  rewrite JSON_parse_delta_cr by assumption.
  reflexivity.
Qed.

Lemma process_deltaFrames_cr (texts : list jsstring) (after : list jsstring) :
  forallb (forallb plainChar) texts = true ->
  process_lines
    (List.map (fun l => l ++ [13%N]) (List.map deltaFrame texts) ++ after) =
  (List.map VString (filter nonEmpty texts) ++ fst (process_lines after),
   snd (process_lines after)).
Proof.
  induction texts as [|c texts IH]; intros H.
  - simpl. now destruct (process_lines after).
  - simpl in H. apply andb_prop in H as [Hc Hts].
    cbn [List.map app process_lines filter].
    rewrite process_line_deltaFrame_cr by assumption.
    rewrite IH by assumption.
    destruct (nonEmpty c); reflexivity.
Qed.

(** X20. When the lines of the response end with a carriage return and a
    line feed, the deltas are still surfaced, but the sentinel line is not
    recognised: the generator reads on to the end of the response, so a
    failure of the transport after the sentinel is reported. *)
Theorem X20_carriage_returns_hide_the_sentinel :
  forall (texts : list jsstring) (cs : list (list byte))
         (fail : option JSError),
    forallb (forallb plainChar) texts = true ->
    List.concat (List.map Utf8.toString cs) =
      List.concat
        (List.map (fun l => l ++ [10%N])
           (List.map (fun l => l ++ [13%N])
              (List.map deltaFrame texts ++ [frame_DONE]))) ->
    stream_loop [] cs fail =
      {| yields := List.map VString (filter nonEmpty texts);
         completion :=
           match fail with
           | Some e => Throw e
           | None => Return tt
           end |}.
Proof.
  intros texts cs fail Hp Hcs.
  rewrite stream_loop_parse_text by reflexivity.
  unfold parse_text. cbn [app]. rewrite Hcs, cut_lines.
  - cbn [fst]. rewrite map_app. cbn [List.map].
    rewrite process_deltaFrames_cr by assumption.
    change (process_lines [frame_DONE ++ [13%N]]) with
      (@nil Value, false).
    cbn [fst snd]. rewrite app_nil_r. reflexivity.
  - rewrite map_app, forallb_app.
    replace (forallb (forallb notLineFeed)
               (List.map (fun l => l ++ [13%N]) [frame_DONE]))
      with true by reflexivity.
    rewrite andb_true_r. clear Hcs.
    induction texts as [|c texts IH]; [reflexivity|].
    simpl in Hp. apply andb_prop in Hp as [Hc Hts].
    cbn [List.map forallb].
    rewrite forallb_app, deltaFrame_no_line_feed by assumption.
    cbn [forallb]. rewrite (IH Hts). reflexivity.
Qed.

Lemma X20_carriage_returns_hide_the_sentinel_witness :
  stream_loop []
    [Utf8.bytes
       (deltaFrame (lit "Hel") ++ [13; 10]%N ++
        deltaFrame (lit "lo") ++ [13; 10]%N ++ frame_DONE ++ [13; 10]%N)]
    (Some connectionReset)
  = {| yields := [VString (lit "Hel"); VString (lit "lo")];
       completion := Throw connectionReset |}.
Proof.
  apply (X20_carriage_returns_hide_the_sentinel [lit "Hel"; lit "lo"]);
    reflexivity.
Defined.

(** ** The overlay window *)

Lemma handle_flagAgrees (ev : MainEvent) (app : OverlayApp) :
  flagAgrees app = true ->
  flagAgrees (handle ev app) = true.
Proof.
  destruct app as [[[v f snt]|] flag]; intros H;
    destruct ev; cbn in *; try destruct flag; cbn in *;
    try reflexivity; try exact H;
    try (apply andb_prop in H as [H1 H2]; rewrite H1; reflexivity).
Qed.

(** X21. The flag [isOverlayVisible] always tells whether the window is
    shown, and the window never has the focus while hidden, whatever
    shortcuts, losses of focus, hide requests and captures follow the
    creation of the window. *)
Theorem X21_visibility_flag_agrees_with_the_window :
  forall (evs : list MainEvent),
    flagAgrees
      (handle_all evs (createOverlayWindow fresh))
    = true.
Proof.
  intros evs. unfold handle_all.
  assert (H0 : flagAgrees
                 (createOverlayWindow fresh) = true)
    by reflexivity.
  revert H0.
  generalize (createOverlayWindow fresh) as app.
  induction evs as [|ev evs IH]; intros app H; simpl; [exact H|].
  apply IH. now apply handle_flagAgrees.
Qed.

(** The store of the renderer after everything the main process sent. *)
Lemma hide_clears_last (app : OverlayApp) (w : BrowserWindow)
    (s : ChatState) :
  overlayWindow app = Some w ->
  exists w',
    overlayWindow (hideOverlay app) = Some w' /\
    fold_left (fun st c => receive c st) (sent w') s
    = clearState (fold_left (fun st c => receive c st) (sent w) s).
Proof.
  intros Hw. unfold hideOverlay. rewrite Hw. eexists. split; [reflexivity|].
  cbn [sent]. rewrite fold_left_app. reflexivity.
Qed.

(** X22. Every way of hiding a visible overlay, the toggle shortcut, the
    escape shortcut, the loss of focus or the request of the renderer,
    empties the renderer's input, detaches the screenshot and stops the
    stream display, and leaves the message log as it was. *)
Theorem X22_hiding_clears_the_renderer_but_keeps_the_log :
  forall (ev : MainEvent) (app : OverlayApp) (w : BrowserWindow)
         (s0 : ChatState),
    overlayWindow app = Some w ->
    isOverlayVisible app = true ->
    asksToHide ev = true ->
    exists w',
      overlayWindow (handle ev app) = Some w' /\
      isOverlayVisible (handle ev app) = false /\
      let before := fold_left (fun st c => receive c st) (sent w) s0 in
      let after := fold_left (fun st c => receive c st) (sent w') s0 in
      messages after = messages before /\
      inputValue after = [] /\
      currentScreenData after = None /\
      isScreenCaptured after = false /\
      isStreaming after = false /\
      streamContent after = [] /\
      isProcessing after = false.
Proof.
  intros ev app w s0 Hw Hv Hev.
  destruct app as [ow flag]. cbn in Hw, Hv. subst ow flag.
  destruct ev as [| | | |sources];
    try (eexists; split; [reflexivity|]; split; [reflexivity|];
         cbn [sent]; rewrite fold_left_app; cbn; repeat split).
  discriminate Hev.
Qed.

Lemma X22_hiding_clears_the_renderer_but_keeps_the_log_witness :
  exists w',
    overlayWindow
      (handle EscapeShortcut
         (sendScreen (Return [lit "data:image/png;base64,AAAA"])
            (showOverlay (createOverlayWindow fresh)))) = Some w' /\
    currentScreenData
      (fold_left (fun st c => receive c st) (sent w') initialState) = None.
Proof.
  destruct (X22_hiding_clears_the_renderer_but_keeps_the_log
              EscapeShortcut
              (sendScreen (Return [lit "data:image/png;base64,AAAA"])
                 (showOverlay (createOverlayWindow fresh)))
              _ initialState eq_refl eq_refl eq_refl)
    as (w' & Hw' & _ & _ & _ & Hd & _).
  exists w'. split; assumption.
Defined.

(** ** From the environment to the request *)

(** X23. What the environment configures is what is sent: an application
    that starts issues, for a blocking request, exactly one call to
    [https://api.openai.com/v1/chat/completions] whose bearer token is
    [OPENAI_API_KEY] and whose model is [OPENAI_MODEL], or [gpt-4o] when
    that variable is unset or empty. *)
Theorem X23_environment_reaches_the_request :
  forall (env : Env) (http : Request -> Completion Value)
         (msg : jsstring) (img : option jsstring) (o : Outcome Value),
    start_and_send env http msg img = Return o ->
    exists r key,
      requests o = [r] /\
      OPENAI_API_KEY env = Some key /\ nonEmpty key = true /\
      url r = lit "https://api.openai.com/v1/chat/completions" /\
      headers r =
        [(lit "Authorization", lit "Bearer " ++ key);
         (lit "Content-Type", lit "application/json")] /\
      getOwn (lit "model") (data r)
        = VString (orElse (OPENAI_MODEL env) (lit "gpt-4o")) /\
      getOwn (lit "messages") (data r) = buildMessages msg img.
Proof.
  intros env http msg img o H.
  unfold start_and_send, new_OverlayApp, new_LLMService in H.
  destruct (OPENAI_API_KEY env) as [key|] eqn:Ek; cbn [orElse] in H.
  - destruct (nonEmpty key) eqn:Ne; cbn [nonEmpty negb] in H;
      [|discriminate].
    rewrite Ne in H. cbn [negb] in H. injection H as <-.
    eexists _, key. unfold sendChatMessage, sendMessage.
    cbn [apiKey requests]. rewrite Ne. cbn [negb requests].
    repeat split.
  - discriminate.
Qed.

Lemma X23_environment_reaches_the_request_witness :
  exists r key,
    requests
      (sendChatMessage svc0 (fun _ => Throw connectionReset)
         (lit "hi") None) = [r] /\
    Some (lit "sk-test") = Some key /\ nonEmpty key = true /\
    url r = lit "https://api.openai.com/v1/chat/completions" /\
    headers r =
      [(lit "Authorization", lit "Bearer " ++ key);
       (lit "Content-Type", lit "application/json")] /\
    getOwn (lit "model") (data r) = VString (lit "gpt-4o") /\
    getOwn (lit "messages") (data r) = buildMessages (lit "hi") None.
Proof.
  apply (X23_environment_reaches_the_request
           {| OPENAI_API_KEY := Some (lit "sk-test");
              OPENAI_MODEL := Some [] |}
           (fun _ => Throw connectionReset) (lit "hi") None).
  reflexivity.
Defined.

(** X24. A screenshot is used for one message only: after a submission
    that passed the guard has settled, the next submission carries no
    screenshot, whatever was attached before. *)
Theorem X24_screenshot_is_sent_once :
  forall (other : Value -> jsstring) (svc : LLMService)
         (http : Request -> Completion ResponseStream)
         (ku ka kb k : Clock) (s : ChatState) (v : jsstring),
    isProcessing s = false ->
    nonEmpty (trim (inputValue s)) = true ->
    nonEmpty (trim v) = true ->
    exists s2,
      App_sendMessage_begin true k
        (setInputValue v (submit other svc http ku ka kb s))
      = Some (s2, trim v, None).
Proof.
  intros other svc http ku ka kb k s v Hp Hi Hv.
  rewrite (submit_state other svc http ku ka kb s Hp Hi).
  unfold App_sendMessage_begin.
  cbn [setInputValue isProcessing inputValue currentScreenData].
  rewrite Hv. cbn [orb negb orUndefined]. eexists. reflexivity.
Qed.

Lemma X24_screenshot_is_sent_once_witness :
  exists s2,
    App_sendMessage_begin true clock0
      (setInputValue (lit "and now?")
         (submit (fun _ => []) svc0 (respond [Utf8.bytes hello_text] None)
            clock0 clock0 clock0
            (handleScreenCapture (Some (lit "data:image/png;base64,AAAA"))
               (setInputValue (lit "what is this") initialState))))
    = Some (s2, lit "and now?", None).
Proof.
  apply (X24_screenshot_is_sent_once (fun _ => []) svc0
           (respond [Utf8.bytes hello_text] None) clock0 clock0 clock0
           clock0
           (handleScreenCapture (Some (lit "data:image/png;base64,AAAA"))
              (setInputValue (lit "what is this") initialState))
           (lit "and now?")); reflexivity.
Defined.
